(** * Weighted crosstabs of the Pew National Latino Surveys notebook

    A shallow embedding of [quick_crosstab] (cell 5 of
    "Latino Survey/Pew National Latino Surveys.ipynb") and of the notebook's
    top-level name bindings, together with the properties stated about them.

    [quick_crosstab] is one expression over pandas objects:
<<
    pd.crosstab(df[x].map(meta.variable_value_labels[x]),
                df[y].map(meta.variable_value_labels[y]),
                weights, aggfunc=sum, dropna=True, normalize='columns')
      .loc[meta.variable_value_labels[x].values()]
      .loc[:, meta.variable_value_labels[y].values()] * 100
>>
    Each pandas operation it calls is embedded below as a function of its
    own, in the order the expression evaluates them.  The pandas semantics
    followed is that of the 1.x series the notebook was written against
    (Python 3.8): list-like [.loc] raises [KeyError] on a missing label,
    [groupby] leaves out rows with a missing key, the builtin [sum] passed as
    [aggfunc] is dispatched to the NaN-skipping group sum, and normalisation
    ends with [fillna(0)].

    Numbers: a float64 cell is an exact rational, or one of the IEEE special
    values.  Rounding is not modelled, nor is the sign of zero, nor overflow
    and underflow: a sum, product or quotient of rationals is their exact
    value, however large or small.  This agrees with float64 up to rounding
    as long as the sums, quotients and products computed stay within its
    normal range; the properties that depend on the value of a sum or of a
    quotient carry a condition on the weights that keeps them there
    ([in_float_range]).

    Objects: the data table, the label maps and the weights are values that
    every step reads.  That the pandas calls behind the steps leave their
    arguments as they found them is how they are embedded, not something
    derived here. *)

From Stdlib Require Import QArith Qcanon.
From stdpp Require Import numbers base option list sorting gmap strings.

Local Open Scope Qc_scope.

(** ** float64 cells *)

Inductive float64 : Type :=
  | Fin (q : Qc)
  | PInf
  | NInf
  | NaN.

Global Instance float64_eq_dec : EqDecision float64.
Proof. solve_decision. Defined.

Definition isnan (v : float64) : bool :=
  match v with NaN => true | _ => false end.

(** IEEE addition: NaN is absorbing and opposite infinities cancel to NaN. *)
Definition fadd (a b : float64) : float64 :=
  match a, b with
  | NaN, _ | _, NaN => NaN
  | Fin p, Fin q => Fin (p + q)
  | PInf, NInf | NInf, PInf => NaN
  | PInf, _ | _, PInf => PInf
  | NInf, _ | _, NInf => NInf
  end.

(** The infinity with the sign of [p], for [p] not zero. *)
Definition signed_inf (p : Qc) : float64 :=
  if decide (0 < p) then PInf else NInf.

(** IEEE multiplication: zero times an infinity is NaN. *)
Definition fmul (a b : float64) : float64 :=
  match a, b with
  | NaN, _ | _, NaN => NaN
  | Fin p, Fin q => Fin (p * q)
  | Fin p, PInf | PInf, Fin p =>
      if decide (p = 0) then NaN else signed_inf p
  | Fin p, NInf | NInf, Fin p =>
      if decide (p = 0) then NaN else signed_inf (- p)
  | PInf, PInf | NInf, NInf => PInf
  | PInf, NInf | NInf, PInf => NInf
  end.

(** IEEE division as numpy performs it (no exception): [0/0] is NaN, a
    non-zero number over zero is an infinity, a number over an infinity is
    zero. *)
Definition fdiv (a b : float64) : float64 :=
  match a, b with
  | NaN, _ | _, NaN => NaN
  | Fin p, Fin q =>
      if decide (q = 0)
      then if decide (p = 0) then NaN else signed_inf p
      else Fin (p / q)
  | Fin _, (PInf | NInf) => Fin 0
  | (PInf | NInf), (PInf | NInf) => NaN
  | PInf, Fin q => if decide (0 ≤ q) then PInf else NInf
  | NInf, Fin q => if decide (0 ≤ q) then NInf else PInf
  end.

(** [Series.sum()] and the group sum, both with [skipna=True] and
    [min_count=0]: missing values are left out and the empty sum is 0. *)
Definition sum_skipna (l : list float64) : float64 :=
  foldr fadd (Fin 0) (filter (λ v, isnan v = false) l).

(** [fillna(0)] on one cell. *)
Definition fillna0 (v : float64) : float64 :=
  if isnan v then Fin 0 else v.

Definition hundred : Qc := Q2Qc 100.

(** ** Data model *)

(** A raw cell of the survey table: a numeric code, a text value, or a
    missing value (NaN). *)
Inductive scalar : Type :=
  | Num (q : Qc)
  | Str (s : string)
  | Missing.

Global Instance scalar_eq_dec : EqDecision scalar.
Proof. solve_decision. Defined.

(** The value labels of one column, [meta.variable_value_labels[x]]: a Python
    dict from raw code to label.  Its iteration order is the order of
    insertion, which [.values()] exposes, so it is kept as an association
    list. *)
Definition value_labels : Type := list (scalar * string).

(** [d.values()] *)
Definition dict_values (d : value_labels) : list string := d.*2.

(** Looking a raw value up among the keys, as [Series.map] does for a dict
    without a NaN key: a missing value (NaN) is found under no key.  The
    value-label dicts read from the survey files have numeric or text keys
    only; a dict with a NaN key, under which pandas would find the missing
    values, is not covered. *)
Fixpoint dict_get (d : value_labels) (k : scalar) : option string :=
  match d with
  | [] => None
  | (k', l) :: d' =>
      if decide (k ≠ Missing ∧ k' = k) then Some l else dict_get d' k
  end.

(** The metadata object returned by pyreadstat next to the table. *)
Record Meta : Type := {
  variable_value_labels : gmap string value_labels
}.

(** The survey table: named columns of equal length over the default
    positional index 0..n-1, as [pyreadstat.read_sav] builds it. *)
Record DataFrame : Type := {
  df_columns : gmap string (list scalar)
}.

(** The [weights] argument.  pandas treats a Series (values with index
    labels) and a plain sequence differently when it stores them as a column
    of another frame. *)
Inductive Weights : Type :=
  | WSeries (s : list (nat * float64))
  | WArray (a : list float64).

Definition weight_values (w : Weights) : list float64 :=
  match w with
  | WSeries s => s.*2
  | WArray a => a
  end.

(** A frame of floats as pandas stores it: an index of row labels and
    labelled columns, each aligned with the index. *)
Record Table : Type := {
  index : list string;
  columns : list (string * list float64)
}.

Definition column_labels (t : Table) : list string := (columns t).*1.

(** ** Exceptions and the objects a call can reach *)

Inductive exn : Type :=
  | KeyError (missing : list string)
  | ValueError (msg : string)
  | NameError (name : string).

Inductive result (A : Type) : Type :=
  | Ok (a : A)
  | Raise (e : exn).
Arguments Ok {A} a.
Arguments Raise {A} e.

(** The three mutable Python objects [quick_crosstab] receives by
    reference. *)
Record objects : Type := {
  o_df : DataFrame;
  o_meta : Meta;
  o_weights : Weights
}.

(** A computation that may read or write the objects and may raise. *)
Definition M (A : Type) : Type := objects → result A * objects.

Global Instance M_ret : MRet M := λ A a o, (Ok a, o).

Global Instance M_bind : MBind M := λ A B k m o,
  match m o with
  | (Ok a, o') => k a o'
  | (Raise e, o') => (Raise e, o')
  end.

(** A step that touches no object. *)
Definition lift {A} (r : result A) : M A := λ o, (r, o).

(** ** The pandas operations of the expression *)

(** [df[x]]: the column, or [KeyError]. *)
Definition df_getitem (x : string) : M (list scalar) := λ o,
  (match df_columns (o_df o) !! x with
   | Some s => Ok s
   | None => Raise (KeyError [x])
   end, o).

(** [meta.variable_value_labels[x]]: the label dict, or [KeyError]. *)
Definition labels_getitem (x : string) : M value_labels := λ o,
  (match variable_value_labels (o_meta o) !! x with
   | Some d => Ok d
   | None => Raise (KeyError [x])
   end, o).

(** The name [weights] in the body. *)
Definition arg_weights : M Weights := λ o, (Ok (o_weights o), o).

(** [s.map(d)]: a new Series; a value that is no key of [d] becomes NaN
    ([None]). *)
Definition series_map (d : value_labels) (s : list scalar) : list (option string) :=
  dict_get d <$> s.

(** One row of the frame [crosstab] builds internally: the two mapped
    factors and the [__dummy__] value. *)
Definition frame_row : Type := option string * option string * float64.

Definition series_lookup (s : list (nat * float64)) (i : nat) : float64 :=
  default NaN ((list_to_map s : gmap nat float64) !! i).

(** [df = DataFrame({x: index, y: columns}, index=common_idx)] followed by
    [df["__dummy__"] = values].
    - A frame without rows takes its index from the value ([__setitem__]
      calls [_ensure_valid_index]): one row per weight, both factors NaN.
    - A plain sequence must have the frame's length, else [ValueError].
    - A Series is reindexed on the frame's index 0..n-1: a row whose position
      is no label of the Series gets NaN, labels beyond the frame are left
      out, and a Series with a repeated label cannot be reindexed. *)
Definition crosstab_frame (xs ys : list (option string)) (w : Weights)
    : result (list frame_row) :=
  match zip xs ys with
  | [] => Ok ((λ v, (None, None, v)) <$> weight_values w)
  | keys =>
      match w with
      | WArray a =>
          if decide (length a = length keys) then Ok (zip keys a)
          else Raise (ValueError "Length of values does not match length of index")
      | WSeries s =>
          if decide (NoDup s.*1)
          then Ok (imap (λ i k, (k, series_lookup s i)) keys)
          else Raise (ValueError "cannot reindex from a duplicate axis")
      end
  end.

(** [groupby([x, y])]: a row with NaN in either key belongs to no group. *)
Definition pair_key (p : option string * option string) : option (string * string) :=
  match p with
  | (Some a, Some b) => Some (a, b)
  | _ => None
  end.

Definition group_key (r : frame_row) : option (string * string) := pair_key r.1.

Definition group_values (k : string * string) (rows : list frame_row) : list float64 :=
  omap (λ r, if decide (group_key r = Some k) then Some r.2 else None) rows.

(** [grouped.agg(sum)]: one entry per observed key pair.  The order of the
    entries is not observable after [unstack], which lays the cells out by
    the sorted levels. *)
Definition groupby_sum (rows : list frame_row) : list (string * string * float64) :=
  (λ k, (k, sum_skipna (group_values k rows))) <$> remove_dups (omap group_key rows).

(** [agged.dropna(how="all")] on the one-column aggregate. *)
Definition dropna_rows (agged : list (string * string * float64))
    : list (string * string * float64) :=
  filter (λ g, isnan g.2 = false) agged.

Definition sorted_unique (l : list string) : list string :=
  merge_sort String.le (remove_dups l).

(** The frame with the given row and column labels whose cell at [(r, c)] is
    [f r c]. *)
Definition table_of (idx cols : list string) (f : string → string → float64) : Table :=
  {| index := idx;
     columns := (λ c, (c, (λ r, f r c) <$> idx)) <$> cols |}.

(** [agged.unstack(...)]: rows are the sorted first-level labels, columns
    the sorted second-level labels, and a pair without an entry is NaN. *)
Definition unstack (agged : list (string * string * float64)) : Table :=
  let cells : gmap (string * string) float64 := list_to_map agged in
  table_of (sorted_unique agged.*1.*1) (sorted_unique agged.*1.*2)
           (λ r c, default NaN (cells !! (r, c))).

(** [table.dropna(how="all", axis=1)] *)
Definition dropna_columns (t : Table) : Table :=
  {| index := index t;
     columns := filter (λ col, forallb isnan col.2 = false) (columns t) |}.

(** [df.pivot_table("__dummy__", index=[x], columns=[y], aggfunc=sum,
    dropna=True)]; no [fill_value] is passed when [values] is given. *)
Definition pivot_table (rows : list frame_row) : Table :=
  dropna_columns (unstack (dropna_rows (groupby_sum rows))).

(** [_normalize(table, normalize="columns")]: [table / table.sum()] and then
    [fillna(0)]. *)
Definition normalize_columns (t : Table) : Table :=
  {| index := index t;
     columns := (λ col : string * list float64,
                   (col.1, (λ v, fillna0 (fdiv v (sum_skipna col.2))) <$> col.2))
                  <$> columns t |}.

(** [pd.crosstab(index, columns, values, aggfunc=sum, dropna=True,
    normalize="columns")] *)
Definition crosstab (xs ys : list (option string)) (w : Weights) : result Table :=
  match crosstab_frame xs ys w with
  | Ok rows => Ok (normalize_columns (pivot_table rows))
  | Raise e => Raise e
  end.

(** [t.loc[labels]] with a list of labels: every row whose label is the
    requested one, label after label; [KeyError] when a requested label is
    not in the index. *)
Definition loc_rows (labels : list string) (t : Table) : result Table :=
  match filter (λ l, l ∉ index t) labels with
  | [] =>
      Ok {| index := l ← labels; filter (λ r, r = l) (index t);
            columns :=
              (λ col : string * list float64,
                 (col.1, l ← labels; (filter (λ p, p.1 = l) (zip (index t) col.2)).*2))
                <$> columns t |}
  | missing => Raise (KeyError missing)
  end.

(** [t.loc[:, labels]]: the same selection on the column axis. *)
Definition loc_columns (labels : list string) (t : Table) : result Table :=
  match filter (λ l, l ∉ column_labels t) labels with
  | [] =>
      Ok {| index := index t;
            columns := l ← labels; filter (λ col, col.1 = l) (columns t) |}
  | missing => Raise (KeyError missing)
  end.

(** [t * k] *)
Definition scale (k : float64) (t : Table) : Table :=
  {| index := index t;
     columns := (λ col : string * list float64, (col.1, (λ v, fmul v k) <$> col.2))
                  <$> columns t |}.

(** ** quick_crosstab *)

(** The body of [quick_crosstab(df, meta, x, y, weights)], sub-expression by
    sub-expression in Python's evaluation order. *)
Definition quick_crosstab (x y : string) : M Table :=
  sx ← df_getitem x;
  lx ← labels_getitem x;
  sy ← df_getitem y;
  ly ← labels_getitem y;
  w ← arg_weights;
  ct ← lift (crosstab (series_map lx sx) (series_map ly sy) w);
  lx' ← labels_getitem x;
  t1 ← lift (loc_rows (dict_values lx') ct);
  ly' ← labels_getitem y;
  t2 ← lift (loc_columns (dict_values ly') t1);
  mret (scale (Fin hundred) t2).

(** The value a call returns, or the exception it raises. *)
Definition call (df : DataFrame) (meta : Meta) (x y : string) (w : Weights)
    : result Table :=
  (quick_crosstab x y {| o_df := df; o_meta := meta; o_weights := w |}).1.

(** ** The notebook's top-level names

    Which global names each code cell binds and loads.  Only name resolution
    is followed: a load of a name that is bound nowhere raises [NameError];
    every other operation of a cell (reading the files, plotting) is taken to
    succeed, and the body of a [def] is evaluated neither when the [def]
    statement runs nor when the function is called: the global names a
    function body loads ([pd] in [quick_crosstab]) are not followed.  A cell
    that raises [NameError] here raises it in the notebook; a cell that ends
    normally here may still fail in the notebook for another reason. *)

#[local] Set Warnings "-register-all".

Inductive expr : Type :=
  | EName (n : string)
  | EStr (s : string)
  | EAttr (e : expr) (attr : string)
  | ECall (f : expr) (args : list expr) (kwargs : list (string * expr)).

Inductive stmt : Type :=
  | SImport (module asname : string)
  | SAssign (targets : list string) (e : expr)
  | SDef (name : string) (params : list string)
  | SExpr (e : expr).

(** The global names an expression loads, in evaluation order: the callee
    before the positional arguments, those before the keyword arguments. *)
Fixpoint loads (e : expr) : list string :=
  match e with
  | EName n => [n]
  | EStr _ => []
  | EAttr e _ => loads e
  | ECall f args kwargs =>
      loads f ++ mjoin (map loads args) ++ mjoin (map (λ kw, loads kw.2) kwargs)
  end.

(** Names Python resolves without a binding in the notebook: the builtin
    functions, and what the IPython kernel puts into the user namespace. *)
Definition builtins : gset string :=
  list_to_set
    ["abs"; "all"; "any"; "ascii"; "bin"; "bool"; "breakpoint"; "bytearray";
     "bytes"; "callable"; "chr"; "classmethod"; "compile"; "complex";
     "delattr"; "dict"; "dir"; "divmod"; "enumerate"; "eval"; "exec";
     "filter"; "float"; "format"; "frozenset"; "getattr"; "globals";
     "hasattr"; "hash"; "help"; "hex"; "id"; "input"; "int"; "isinstance";
     "issubclass"; "iter"; "len"; "list"; "locals"; "map"; "max";
     "memoryview"; "min"; "next"; "object"; "oct"; "open"; "ord"; "pow";
     "print"; "property"; "range"; "repr"; "reversed"; "round"; "set";
     "setattr"; "slice"; "sorted"; "staticmethod"; "str"; "sum"; "super";
     "tuple"; "type"; "vars"; "zip"; "__import__";
     "In"; "Out"; "get_ipython"; "exit"; "quit"].

Definition resolves (ns : gset string) (n : string) : bool :=
  bool_decide (n ∈ ns ∪ builtins).

(** Evaluating an expression: the first load that does not resolve raises. *)
Definition eval_expr (ns : gset string) (e : expr) : result unit :=
  match filter (λ n, resolves ns n = false) (loads e) with
  | [] => Ok ()
  | n :: _ => Raise (NameError n)
  end.

Definition exec_stmt (ns : gset string) (st : stmt) : result unit * gset string :=
  match st with
  | SImport _ a => (Ok (), {[a]} ∪ ns)
  | SDef f _ => (Ok (), {[f]} ∪ ns)
  | SAssign targets e =>
      match eval_expr ns e with
      | Ok _ => (Ok (), list_to_set targets ∪ ns)
      | Raise err => (Raise err, ns)
      end
  | SExpr e => (eval_expr ns e, ns)
  end.

(** A cell runs its statements in order and stops at the first exception. *)
Fixpoint exec_cell (ns : gset string) (cell : list stmt) : result unit * gset string :=
  match cell with
  | [] => (Ok (), ns)
  | st :: rest =>
      match exec_stmt ns st with
      | (Ok _, ns') => exec_cell ns' rest
      | (Raise err, ns') => (Raise err, ns')
      end
  end.

(** Running the cells top to bottom in one kernel: the outcome of each cell
    and the namespace left at the end. *)
Fixpoint run_cells (ns : gset string) (cells : list (list stmt))
    : list (result unit) * gset string :=
  match cells with
  | [] => ([], ns)
  | cell :: rest =>
      let '(r, ns') := exec_cell ns cell in
      let '(rs, ns'') := run_cells ns' rest in
      (r :: rs, ns'')
  end.

Definition bound_by (st : stmt) : list string :=
  match st with
  | SImport _ a => [a]
  | SDef f _ => [f]
  | SAssign targets _ => targets
  | SExpr _ => []
  end.

Definition call_quick_crosstab (f : expr) (df meta x y w : expr) : expr :=
  ECall f [df; meta; x; y; w] [].

Definition cell_imports : list stmt :=
  [ SImport "pandas" "pd"; SImport "pyreadstat" "pyreadstat";
    SImport "numpy" "np"; SImport "matplotlib.pyplot" "plt";
    SImport "seaborn" "sns" ].

Definition cell_read : list stmt :=
  [ SAssign ["df15"; "meta15"]
      (ECall (EAttr (EName "pyreadstat") "read_sav") [EStr "latino2015.sav"] []);
    SAssign ["df18"; "meta18"]
      (ECall (EAttr (EName "pyreadstat") "read_sav") [EStr "latino2018.sav"] []) ].

Definition cell_def : list stmt :=
  [ SDef "quick_crosstab" ["df"; "meta"; "x"; "y"; "weights"] ].

Definition cell_2015 : list stmt :=
  [ SAssign ["demo"] (EStr "q3_combo");
    SAssign ["ct15_whites"]
      (call_quick_crosstab (EName "quick_crosstab") (EName "df15") (EName "meta15")
         (EStr "q20a") (EName "demo") (EAttr (EName "df15") "weights"));
    SAssign ["ct15_blacks"]
      (call_quick_crosstab (EName "quick_crosstab") (EName "df15") (EName "meta15")
         (EStr "q20c") (EName "demo") (EAttr (EName "df15") "weights"));
    SAssign ["ct15_asians"]
      (call_quick_crosstab (EName "quick_crosstab") (EName "df15") (EName "meta15")
         (EStr "q20d") (EName "demo") (EAttr (EName "df15") "weights")) ].

Definition cell_heatmap (ct title : string) : list stmt :=
  [ SExpr (ECall (EAttr (EName "sns") "heatmap") [EName ct] [("cmap", EStr "rocket")]);
    SExpr (ECall (EAttr (EName "plt") "title") [EStr title] []) ].

Definition cell_2018 : list stmt :=
  [ SAssign ["ct18_voting"]
      (call_quick_crosstab (EAttr (EName "pt") "quick_crosstab")
         (EName "df18") (EName "meta18") (EStr "qn14b") (EStr "qn3")
         (EAttr (EName "df18") "weight")) ].

Definition notebook : list (list stmt) :=
  [ cell_imports; cell_read; cell_def; cell_2015;
    cell_heatmap "ct15_whites" "How much do you have in common with White Americans?";
    cell_heatmap "ct15_blacks" "How much do you have in common with African Americans?";
    cell_heatmap "ct15_asians" "How much do you have in common with Asian Americans?";
    cell_2018 ].

(** ** Notions the properties are stated with *)

(** The label pairs of the rows that go into the aggregation: those with a
    label on both axes. *)
Definition key_pairs (xs ys : list (option string)) : list (string * string) :=
  omap pair_key (zip xs ys).

(** A weight a survey row may carry: a non-negative number, or none. *)
Definition weight_ok (v : float64) : Prop :=
  match v with
  | Fin q => 0 ≤ q
  | NaN => True
  | _ => False
  end.

(** What a value adds to a sum that skips missing values. *)
Definition weight_of (v : float64) : Qc :=
  match v with Fin q => q | _ => 0 end.

Definition qsum (l : list Qc) : Qc := foldr Qcplus 0 l.

(** The range of weights on which no sum, quotient or product that a call
    computes overflows or underflows in float64: a weight is missing, zero,
    or at least [2^-500], and the weights add up to [2^500] at most.  A sum
    of such weights is then zero or between [2^-500] and [2^500], and a
    quotient of two such sums is at least [2^-1000], well above the smallest
    normal float64, [2^-1022]. *)
Definition min_weight : Qc := Q2Qc (1 # 2 ^ 500).

Definition max_total : Qc := Q2Qc (inject_Z (2 ^ 500)).

Definition weight_in_range (v : float64) : Prop :=
  match v with
  | Fin q => q = 0 ∨ min_weight ≤ q
  | NaN => True
  | _ => False
  end.

Definition in_float_range (ws : list float64) : Prop :=
  Forall weight_in_range ws ∧ qsum (weight_of <$> ws) ≤ max_total.

(** The weights of the rows under column label [c] that go into the
    aggregation, and their total. *)
Definition column_values (rows : list frame_row) (c : string) : list float64 :=
  omap (λ r, match group_key r with
             | Some (_, b) => if decide (b = c) then Some r.2 else None
             | None => None
             end) rows.

Definition column_weight (rows : list frame_row) (c : string) : float64 :=
  sum_skipna (column_values rows c).

(** The weight pandas aligns with the row at position [i]: the element at
    that position of a plain sequence, the value under label [i] of a
    Series, NaN where there is none. *)
Definition row_weight (w : Weights) (i : nat) : float64 :=
  match w with
  | WArray a => default NaN (a !! i)
  | WSeries s => series_lookup s i
  end.

(** Weights that [crosstab] stores without raising on a frame of [n] rows. *)
Definition weights_fit (n : nat) (w : Weights) : Prop :=
  match w with
  | WArray a => length a = n
  | WSeries s => NoDup s.*1
  end.


(** The weight sum of the group [(r, c)] as [unstack] sees it: NaN when the
    pair has no entry. *)
Definition agg_cell (rows : list frame_row) (r c : string) : float64 :=
  default NaN
    ((list_to_map (dropna_rows (groupby_sum rows)) : gmap (string * string) float64)
       !! (r, c)).

(** The cell a call returns at [(r, c)]: the group sum over the sum of its
    column, missing values filled with 0, times 100. *)
Definition percent_cell (rows : list frame_row) (r c : string) : float64 :=
  fmul
    (fillna0
       (fdiv (agg_cell rows r c)
          (sum_skipna ((λ r', agg_cell rows r' c) <$> index (pivot_table rows)))))
    (Fin hundred).

(** A computation that leaves every object as it found it. *)
Definition read_only {A} (m : M A) : Prop := ∀ o, (m o).2 = o.

(** The spec's example scenario. *)
Definition example_df : DataFrame :=
  {| df_columns := {[ "x" := [Num 1; Num 2; Num 1];
                      "y" := [Str "A"; Str "A"; Str "B"] ]} |}.

Definition example_meta : Meta :=
  {| variable_value_labels :=
       {[ "x" := [(Num 1, "Yes"); (Num 2, "No")];
          "y" := [(Str "A", "A"); (Str "B", "B")] ]} |}.

Definition example_weights : Weights := WArray [Fin 2; Fin 2; Fin (Q2Qc 5)].

Definition example_objects : objects :=
  {| o_df := example_df; o_meta := example_meta; o_weights := example_weights |}.

(** The table the example scenario yields. *)
Definition example_table : Table :=
  {| index := ["Yes"; "No"];
     columns := [("A", [Fin (Q2Qc 50); Fin (Q2Qc 50)]);
                 ("B", [Fin (Q2Qc 100); Fin 0])] |}.

(** The example scenario with a weight Series that covers the first two of
    the three rows only. *)
Definition short_series : Weights := WSeries [(0%nat, Fin 2); (1%nat, Fin 2)].

Definition short_series_table : Table :=
  {| index := ["Yes"; "No"];
     columns := [("A", [Fin (Q2Qc 50); Fin (Q2Qc 50)]);
                 ("B", [Fin 0; Fin 0])] |}.

(** The example scenario with no weight on the one row of column 'B', and
    the internal frame [crosstab] builds for it. *)
Definition zero_b_weights : Weights := WArray [Fin 2; Fin 2; Fin 0].

Definition zero_b_rows : list frame_row :=
  [ (Some "Yes", Some "A", Fin 2); (Some "No", Some "A", Fin 2);
    (Some "Yes", Some "B", Fin 0) ].

Definition zero_b_table : Table :=
  {| index := ["Yes"; "No"];
     columns := [("A", [Fin (Q2Qc 50); Fin (Q2Qc 50)]);
                 ("B", [Fin 0; Fin 0])] |}.

(** A label map in which two codes of x share a label. *)
Definition shared_label_df : DataFrame :=
  {| df_columns := {[ "x" := [Num 1; Num 2]; "y" := [Str "A"; Str "A"] ]} |}.

Definition shared_label_meta : Meta :=
  {| variable_value_labels :=
       {[ "x" := [(Num 1, "Yes"); (Num 2, "Yes")]; "y" := [(Str "A", "A")] ]} |}.

(** A table of one row that carries no weight. *)
Definition single_df : DataFrame :=
  {| df_columns := {[ "x" := [Num 1]; "y" := [Str "A"] ]} |}.

Definition single_meta : Meta :=
  {| variable_value_labels :=
       {[ "x" := [(Num 1, "Yes")]; "y" := [(Str "A", "A")] ]} |}.

Definition single_rows : list frame_row := [ (Some "Yes", Some "A", Fin 0) ].

(** A table without rows and without labels. *)
Definition empty_df : DataFrame :=
  {| df_columns := {[ "x" := []; "y" := [] ]} |}.

Definition empty_meta : Meta :=
  {| variable_value_labels := {[ "x" := []; "y" := [] ]} |}.

(** Closes an equation between two computed results whose rationals are
    equal as fractions. *)
Ltac compute_eq :=
  vm_compute;
  repeat match goal with
    | |- @eq Qc _ _ => apply Qc_is_canon; reflexivity
    | |- Fin _ = Fin _ => f_equal
    | |- Ok _ = Ok _ => f_equal
    | |- Some _ = Some _ => f_equal
    | |- Build_Table _ _ = Build_Table _ _ => f_equal
    | |- _ :: _ = _ :: _ => f_equal
    | |- (_, _) = (_, _) => f_equal
    | |- _ => reflexivity
    end.

(** Shows that concrete weights are within the float64 range. *)
Ltac in_range :=
  split;
    [ repeat (apply List.Forall_cons;
                [first [done | by left | right; by vm_compute]|]);
      apply List.Forall_nil
    | by vm_compute ].

(** A column of floats taken out of the table, as [df.weights] is: a Series
    over the default index 0..n-1. *)
Definition as_series (a : list float64) : Weights :=
  WSeries (imap (λ i v, (i, v)) a).

(** [weights * k] *)
Definition scale_weights (k : Qc) (w : Weights) : Weights :=
  match w with
  | WArray a => WArray ((λ v, fmul v (Fin k)) <$> a)
  | WSeries s => WSeries ((λ iv, (iv.1, fmul iv.2 (Fin k))) <$> s)
  end.

(** [weights.fillna(0)] *)
Definition fill_weights (w : Weights) : Weights :=
  match w with
  | WArray a => WArray (fillna0 <$> a)
  | WSeries s => WSeries ((λ iv, (iv.1, fillna0 iv.2)) <$> s)
  end.

(** The internal frame of the example scenario. *)
Definition example_rows : list frame_row :=
  [ (Some "Yes", Some "A", Fin 2); (Some "No", Some "A", Fin 2);
    (Some "Yes", Some "B", Fin (Q2Qc 5)) ].

(** * Properties *)

Lemma Ok_inj {A} (a b : A) : Ok a = Ok b → a = b.
Proof. congruence. Qed.

(** ** Read-only steps

    Every step of the embedding reads the objects and returns them as they
    were.  This records how the pandas calls are embedded; it says nothing
    about the library behind them. *)

Lemma read_only_ret {A} (a : A) : read_only (mret a).
Proof. by intros o. Qed.

Lemma read_only_lift {A} (r : result A) : read_only (lift r).
Proof. by intros o. Qed.

Lemma read_only_bind {A B} (m : M A) (k : A → M B) :
  read_only m → (∀ a, read_only (k a)) → read_only (m ≫= k).
Proof.
  intros Hm Hk o. unfold mbind, M_bind.
  specialize (Hm o). destruct (m o) as [[a|e] o']; simpl in *; subst; [apply Hk|done].
Qed.

Lemma read_only_df_getitem x : read_only (df_getitem x).
Proof. by intros o. Qed.

Lemma read_only_labels_getitem x : read_only (labels_getitem x).
Proof. by intros o. Qed.

Lemma read_only_arg_weights : read_only arg_weights.
Proof. by intros o. Qed.

Create HintDb read_only.
#[local] Hint Resolve read_only_ret read_only_lift read_only_df_getitem
  read_only_labels_getitem read_only_arg_weights : read_only.

Lemma quick_crosstab_read_only x y : read_only (quick_crosstab x y).
Proof.
  unfold quick_crosstab.
  repeat (apply read_only_bind; [auto with read_only|intros ?]).
  auto with read_only.
Qed.

(** ** Selecting by label *)

Lemma filter_fmap {A B} (f : A → B) (P : B → Prop) `{!∀ b, Decision (P b)}
    (l : list A) :
  filter P (f <$> l) = f <$> filter (P ∘ f) l.
Proof.
  induction l as [|a l IH]; [done|]. cbn [fmap list_fmap].
  rewrite !filter_cons, IH. simpl. by destruct (decide (P (f a))).
Qed.

Lemma filter_eq_NoDup (idx : list string) l :
  NoDup idx → l ∈ idx → filter (λ r, r = l) idx = [l].
Proof.
  induction 1 as [|r idx Hr _ IH]; [by intros ?%elem_of_nil|].
  rewrite filter_cons. intros [->|Hin]%elem_of_cons.
  - rewrite decide_True by done. f_equal.
    destruct (filter _ idx) as [|r' ?] eqn:Hf; [done|].
    assert (r' ∈ filter (λ r0, r0 = r) idx) as [-> ?]%list_elem_of_filter
      by (rewrite Hf; left). done.
  - rewrite decide_False by (intros ->; done). by apply IH.
Qed.

Lemma bind_filter_eq (idx labels : list string) :
  NoDup idx → labels ⊆ idx →
  (l ← labels; filter (λ r, r = l) idx) = labels.
Proof.
  intros Hnd. induction labels as [|l labels IH]; intros Hsub; [done|].
  rewrite bind_cons, filter_eq_NoDup, IH; [done|set_solver..].
Qed.

Lemma zip_fmap_self {A} (g : string → A) (idx : list string) :
  zip idx (g <$> idx) = (λ r, (r, g r)) <$> idx.
Proof. induction idx as [|r idx IH]; [done|]. cbn. by rewrite <-IH. Qed.

Lemma bind_select {A} (g : string → A) (idx labels : list string) :
  NoDup idx → labels ⊆ idx →
  (l ← labels; (filter (λ p, p.1 = l) (zip idx (g <$> idx))).*2) = g <$> labels.
Proof.
  intros Hnd. induction labels as [|l labels IH]; intros Hsub; [done|].
  rewrite bind_cons, IH by set_solver. cbn [fmap list_fmap]. 
  rewrite zip_fmap_self, (filter_fmap (λ r, (r, g r)) (λ p, p.1 = l)).
  unfold compose. cbn [fst].
  rewrite filter_eq_NoDup by set_solver. done.
Qed.

Lemma filter_not_elem_nil (idx labels : list string) :
  filter (λ l, l ∉ idx) labels = [] ↔ labels ⊆ idx.
Proof.
  split.
  - intros Hf l Hl. destruct (decide (l ∈ idx)) as [|Hn]; [done|].
    by destruct (filter_nil_not_elem_of _ _ l Hf Hn).
  - intros Hsub. induction labels as [|l labels IH]; [done|].
    rewrite filter_cons, decide_False by (intros Hn; apply Hn; set_solver).
    apply IH. set_solver.
Qed.

(** ** The operations on a frame given by its cells *)

Section table_of.
Implicit Types (idx cols labels : list string) (f : string → string → float64).

Lemma column_labels_table_of idx cols f :
  column_labels (table_of idx cols f) = cols.
Proof.
  unfold column_labels, table_of. cbn [columns].
  rewrite <-list_fmap_compose. by rewrite <-(list_fmap_id cols) at 2.
Qed.

Lemma loc_rows_table_of labels idx cols f :
  NoDup idx → labels ⊆ idx →
  loc_rows labels (table_of idx cols f) = Ok (table_of labels cols f).
Proof.
  intros Hnd Hsub. unfold loc_rows. cbn [index columns table_of].
  rewrite (proj2 (filter_not_elem_nil idx labels) Hsub).
  f_equal. unfold table_of. f_equal; [by apply bind_filter_eq|].
  rewrite <-list_fmap_compose. apply list_fmap_ext. intros _ c _. cbn.
  f_equal. by apply (bind_select (λ r, f r c)).
Qed.

Lemma loc_columns_table_of labels idx cols f :
  NoDup cols → labels ⊆ cols →
  loc_columns labels (table_of idx cols f) = Ok (table_of idx labels f).
Proof.
  intros Hnd Hsub. unfold loc_columns. rewrite column_labels_table_of.
  rewrite (proj2 (filter_not_elem_nil cols labels) Hsub).
  f_equal. unfold table_of. cbn [index columns]. f_equal.
  induction labels as [|l labels IH]; [done|].
  rewrite bind_cons, IH by set_solver. cbn [fmap list_fmap].
  rewrite (filter_fmap _ (λ col : string * list float64, col.1 = l)).
  unfold compose. cbn [fst]. rewrite filter_eq_NoDup by set_solver. done.
Qed.

Lemma normalize_columns_table_of idx cols f :
  normalize_columns (table_of idx cols f) =
  table_of idx cols
    (λ r c, fillna0 (fdiv (f r c) (sum_skipna ((λ r', f r' c) <$> idx)))).
Proof.
  unfold normalize_columns, table_of. cbn [index columns]. f_equal.
  rewrite <-list_fmap_compose. apply list_fmap_ext. intros _ c _. cbn.
  f_equal. by rewrite <-list_fmap_compose.
Qed.

Lemma dropna_columns_table_of idx cols f :
  dropna_columns (table_of idx cols f) =
  table_of idx
    (filter (λ c, forallb isnan ((λ r, f r c) <$> idx) = false) cols) f.
Proof.
  unfold dropna_columns, table_of. cbn [index columns]. f_equal.
  by rewrite (filter_fmap _ (λ col : string * list float64,
                               forallb isnan col.2 = false)).
Qed.

Lemma scale_table_of k idx cols f :
  scale k (table_of idx cols f) = table_of idx cols (λ r c, fmul (f r c) k).
Proof.
  unfold scale, table_of. cbn [index columns]. f_equal.
  rewrite <-list_fmap_compose. apply list_fmap_ext. intros _ c _. cbn.
  f_equal. by rewrite <-list_fmap_compose.
Qed.
End table_of.

(** ** The aggregate *)

Lemma elem_of_sorted_unique (l : list string) a : a ∈ sorted_unique l ↔ a ∈ l.
Proof.
  unfold sorted_unique. by rewrite merge_sort_Permutation, elem_of_remove_dups.
Qed.

Lemma NoDup_sorted_unique (l : list string) : NoDup (sorted_unique l).
Proof.
  unfold sorted_unique. rewrite merge_sort_Permutation. apply NoDup_remove_dups.
Qed.

(** The aggregate is a frame given by its cells: [agg_cell] over the observed
    row labels and the observed column labels that keep a value. *)
Lemma pivot_table_table_of rows :
  pivot_table rows =
  table_of (index (pivot_table rows)) (column_labels (pivot_table rows))
    (agg_cell rows).
Proof.
  unfold pivot_table, unstack. rewrite dropna_columns_table_of.
  by rewrite column_labels_table_of.
Qed.

Lemma NoDup_index_pivot_table rows : NoDup (index (pivot_table rows)).
Proof. apply NoDup_sorted_unique. Qed.

Lemma NoDup_columns_pivot_table rows : NoDup (column_labels (pivot_table rows)).
Proof.
  unfold pivot_table, unstack. rewrite dropna_columns_table_of, column_labels_table_of.
  apply NoDup_filter, NoDup_sorted_unique.
Qed.

(** ** What a call computes *)

Lemma quick_crosstab_unfold o x y sx sy lx ly :
  df_columns (o_df o) !! x = Some sx →
  df_columns (o_df o) !! y = Some sy →
  variable_value_labels (o_meta o) !! x = Some lx →
  variable_value_labels (o_meta o) !! y = Some ly →
  (quick_crosstab x y o).1 =
  match crosstab (series_map lx sx) (series_map ly sy) (o_weights o) with
  | Ok ct =>
      match loc_rows (dict_values lx) ct with
      | Ok t1 =>
          match loc_columns (dict_values ly) t1 with
          | Ok t2 => Ok (scale (Fin hundred) t2)
          | Raise e => Raise e
          end
      | Raise e => Raise e
      end
  | Raise e => Raise e
  end.
Proof.
  intros Hsx Hsy Hlx Hly.
  unfold quick_crosstab, mbind, M_bind, df_getitem, labels_getitem, arg_weights, lift.
  cbn. rewrite Hsx, Hlx, Hsy, Hly.
  destruct (crosstab _ _ _) as [ct|e]; [|done].
  destruct (loc_rows _ ct) as [t1|e]; [|done].
  by destruct (loc_columns _ t1).
Qed.

(** A call that raises no [KeyError] on its arguments and aligns the weights
    returns the percent cells laid out by the two label sequences, or raises
    [KeyError] at the first [.loc] that misses a label. *)
Lemma quick_crosstab_rows o x y sx sy lx ly rows :
  df_columns (o_df o) !! x = Some sx →
  df_columns (o_df o) !! y = Some sy →
  variable_value_labels (o_meta o) !! x = Some lx →
  variable_value_labels (o_meta o) !! y = Some ly →
  crosstab_frame (series_map lx sx) (series_map ly sy) (o_weights o) = Ok rows →
  (quick_crosstab x y o).1 =
  match filter (λ l, l ∉ index (pivot_table rows)) (dict_values lx) with
  | [] =>
      match filter (λ l, l ∉ column_labels (pivot_table rows)) (dict_values ly) with
      | [] => Ok (table_of (dict_values lx) (dict_values ly) (percent_cell rows))
      | missing => Raise (KeyError missing)
      end
  | missing => Raise (KeyError missing)
  end.
Proof.
  intros Hsx Hsy Hlx Hly Hrows.
  rewrite (quick_crosstab_unfold o x y sx sy lx ly) by done.
  unfold crosstab. rewrite Hrows.
  rewrite (pivot_table_table_of rows) at 1.
  rewrite normalize_columns_table_of.
  destruct (filter _ (dict_values lx)) as [|m ms] eqn:Hfx.
  - apply filter_not_elem_nil in Hfx.
    rewrite loc_rows_table_of by (done || apply NoDup_index_pivot_table).
    destruct (filter _ (dict_values ly)) as [|m ms] eqn:Hfy.
    + apply filter_not_elem_nil in Hfy.
      rewrite loc_columns_table_of by (done || apply NoDup_columns_pivot_table).
      by rewrite scale_table_of.
    + unfold loc_columns. rewrite column_labels_table_of. by rewrite Hfy.
  - unfold loc_rows. cbn [index table_of]. by rewrite Hfx.
Qed.

Lemma quick_crosstab_Ok o x y t :
  (quick_crosstab x y o).1 = Ok t →
  ∃ sx sy lx ly rows,
    df_columns (o_df o) !! x = Some sx ∧
    df_columns (o_df o) !! y = Some sy ∧
    variable_value_labels (o_meta o) !! x = Some lx ∧
    variable_value_labels (o_meta o) !! y = Some ly ∧
    crosstab_frame (series_map lx sx) (series_map ly sy) (o_weights o) = Ok rows ∧
    dict_values lx ⊆ index (pivot_table rows) ∧
    dict_values ly ⊆ column_labels (pivot_table rows) ∧
    t = table_of (dict_values lx) (dict_values ly) (percent_cell rows).
Proof.
  intros Ht.
  destruct (df_columns (o_df o) !! x) as [sx|] eqn:Hsx; last first.
  { revert Ht. unfold quick_crosstab, mbind, M_bind, df_getitem. cbn.
    by rewrite Hsx. }
  destruct (variable_value_labels (o_meta o) !! x) as [lx|] eqn:Hlx; last first.
  { revert Ht. unfold quick_crosstab, mbind, M_bind, df_getitem, labels_getitem.
    cbn. by rewrite Hsx, Hlx. }
  destruct (df_columns (o_df o) !! y) as [sy|] eqn:Hsy; last first.
  { revert Ht. unfold quick_crosstab, mbind, M_bind, df_getitem, labels_getitem.
    cbn. by rewrite Hsx, Hlx, Hsy. }
  destruct (variable_value_labels (o_meta o) !! y) as [ly|] eqn:Hly; last first.
  { revert Ht. unfold quick_crosstab, mbind, M_bind, df_getitem, labels_getitem.
    cbn. by rewrite Hsx, Hlx, Hsy, Hly. }
  destruct (crosstab_frame (series_map lx sx) (series_map ly sy) (o_weights o))
    as [rows|e] eqn:Hrows.
  - rewrite (quick_crosstab_rows o x y sx sy lx ly rows) in Ht by done.
    destruct (filter _ (dict_values lx)) as [|] eqn:Hfx; [|done].
    destruct (filter _ (dict_values ly)) as [|] eqn:Hfy; [|done].
    apply filter_not_elem_nil in Hfx, Hfy.
    exists sx, sy, lx, ly, rows. by simplify_eq.
  - rewrite (quick_crosstab_unfold o x y sx sy lx ly) in Ht by done.
    unfold crosstab in Ht. by rewrite Hrows in Ht.
Qed.

(** ** The example scenario *)

Lemma example_call :
  (quick_crosstab "x" "y" example_objects).1 = Ok example_table.
Proof. compute_eq. Qed.

(** C4, as the spec states it, fails on the code: in the example scenario the
    ('No','B') cell of the returned table is a number, not NaN. *)
Lemma example_no_b_not_nan :
  ∃ t vals v,
    call example_df example_meta "x" "y" example_weights = Ok t ∧
    index t !! 1%nat = Some "No" ∧
    columns t !! 1%nat = Some ("B", vals) ∧
    vals !! 1%nat = Some v ∧
    isnan v = false.
Proof.
  exists example_table, [Fin (Q2Qc 100); Fin 0], (Fin 0).
  split; [|done]. unfold call. apply example_call.
Qed.

(** C4 (amended): for the spec's example input, [quick_crosstab] returns
    column 'A' with Yes=50 and No=50 and column 'B' with Yes=100; the
    ('No','B') cell, for which no row exists, is present and holds 0: the
    'No' row is not dropped, and the cell is not NaN. *)
Theorem example_scenario :
  call example_df example_meta "x" "y" example_weights =
  Ok {| index := ["Yes"; "No"];
        columns := [("A", [Fin (Q2Qc 50); Fin (Q2Qc 50)]);
                    ("B", [Fin (Q2Qc 100); Fin 0])] |}.
Proof. unfold call. apply example_call. Qed.

(** ** Order of the labels *)

(** C2: the row labels of a returned table are the label sequence of the
    Column Label Map for x, in its order, and the column labels are the
    label sequence for y, in its order. *)
Theorem labels_in_canonical_order o x y t :
  (quick_crosstab x y o).1 = Ok t →
  ∃ lx ly,
    variable_value_labels (o_meta o) !! x = Some lx ∧
    variable_value_labels (o_meta o) !! y = Some ly ∧
    index t = dict_values lx ∧
    column_labels t = dict_values ly.
Proof.
  intros (sx & sy & lx & ly & rows & _ & _ & Hlx & Hly & _ & _ & _ & ->)
    %quick_crosstab_Ok.
  exists lx, ly. by rewrite column_labels_table_of.
Qed.

Lemma labels_in_canonical_order_witness :
  ∃ lx ly,
    variable_value_labels (o_meta example_objects) !! "x" = Some lx ∧
    variable_value_labels (o_meta example_objects) !! "y" = Some ly ∧
    index example_table = dict_values lx ∧
    column_labels example_table = dict_values ly.
Proof.
  apply (labels_in_canonical_order example_objects "x" "y" example_table).
  compute_eq.
Defined.

(** ** The last cell *)

Lemma exec_cell_2018 ns :
  "pt" ∉ ns → exec_cell ns cell_2018 = (Raise (NameError "pt"), ns).
Proof.
  intros Hpt.
  assert (resolves ns "pt" = false) as Hr.
  { apply bool_decide_eq_false_2. intros [?|Hb]%elem_of_union; [done|].
    revert Hb. apply (bool_decide_eq_false_1 _). by vm_compute. }
  cbn. unfold eval_expr. cbn.
  by destruct (decide (resolves ns "pt" = false)).
Qed.

(** C9: the name [pt] of the final crosstab invocation is bound by no cell of
    the notebook and is no builtin, so running the notebook ends with that
    cell raising [NameError] for [pt], and [ct18_voting] is never bound. *)
Theorem final_cell_undefined_name :
  ("pt" ∉ mjoin (map bound_by (mjoin notebook))) ∧
  ("pt" ∉ builtins) ∧
  last notebook = Some cell_2018 ∧
  last (run_cells ∅ notebook).1 = Some (Raise (NameError "pt")) ∧
  ("ct18_voting" ∉ (run_cells ∅ notebook).2).
Proof.
  split_and!.
  - apply (bool_decide_eq_false_1 _). by vm_compute.
  - apply (bool_decide_eq_false_1 _). by vm_compute.
  - done.
  - by vm_compute.
  - apply (bool_decide_eq_false_1 _). by vm_compute.
Qed.

(** ** The weight vector *)

(** C10, as stated, fails on the code: a weight Series over the labels 0 and
    1, shorter than the table of three rows, is reindexed, not refused, and
    a table without rows takes a plain sequence of one weight. *)
Lemma short_weights_accepted :
  (df_columns example_df !! "x" = Some [Num 1; Num 2; Num 1] ∧
   length (weight_values short_series) = 2%nat ∧
   call example_df example_meta "x" "y" short_series = Ok short_series_table) ∧
  (df_columns empty_df !! "x" = Some [] ∧
   call empty_df empty_meta "x" "y" (WArray [Fin 1]) = Ok {| index := []; columns := [] |}).
Proof. split_and!; try done; compute_eq. Qed.

(** C10 (amended): for a table that has the columns x and y and at least one
    row, and a weight vector given as a plain sequence (not a Series) whose
    length differs from the row count, [quick_crosstab] raises; when the
    metadata has label dicts for both x and y, the exception is the
    [ValueError] of the length check. *)
Theorem length_mismatch_raises df meta x y sx sy a :
  df_columns df !! x = Some sx →
  df_columns df !! y = Some sy →
  length sx = length sy →
  sx ≠ [] →
  length a ≠ length sx →
  ∃ e, call df meta x y (WArray a) = Raise e ∧
       (is_Some (variable_value_labels meta !! x) →
        is_Some (variable_value_labels meta !! y) →
        e = ValueError "Length of values does not match length of index").
Proof.
  intros Hsx Hsy Hlen Hne Ha. unfold call.
  destruct (variable_value_labels meta !! x) as [lx|] eqn:Hlx; last first.
  { exists (KeyError [x]). split; [|by intros [? [=]]].
    unfold quick_crosstab, mbind, M_bind, df_getitem, labels_getitem. cbn.
    by rewrite Hsx, Hlx. }
  destruct (variable_value_labels meta !! y) as [ly|] eqn:Hly; last first.
  { exists (KeyError [y]). split; [|by intros _ [? [=]]].
    unfold quick_crosstab, mbind, M_bind, df_getitem, labels_getitem. cbn.
    by rewrite Hsx, Hlx, Hsy, Hly. }
  exists (ValueError "Length of values does not match length of index").
  split; [|done].
  rewrite (quick_crosstab_unfold _ x y sx sy lx ly) by done.
  unfold crosstab, crosstab_frame. cbn [o_weights].
  assert (length (zip (series_map lx sx) (series_map ly sy)) = length sx) as Hz.
  { unfold series_map. rewrite length_zip_with, !length_fmap. lia. }
  destruct (zip _ _) as [|k keys] eqn:Hk.
  { destruct sx; [done|]. simpl in Hz. lia. }
  rewrite decide_False; [done|]. by rewrite Hz.
Qed.

Lemma length_mismatch_raises_witness :
  ∃ e, call example_df example_meta "x" "y" (WArray [Fin 2; Fin 2]) = Raise e ∧
       (is_Some (variable_value_labels example_meta !! "x") →
        is_Some (variable_value_labels example_meta !! "y") →
        e = ValueError "Length of values does not match length of index").
Proof.
  apply (length_mismatch_raises example_df example_meta "x" "y"
           [Num 1; Num 2; Num 1] [Str "A"; Str "A"; Str "B"]);
    [reflexivity|reflexivity|reflexivity|discriminate|simpl; lia].
Defined.

(** ** Which labels the aggregate has *)

Lemma groupby_sum_keys rows :
  (groupby_sum rows).*1 = remove_dups (omap group_key rows).
Proof.
  unfold groupby_sum. rewrite <-list_fmap_compose.
  rewrite <-(list_fmap_id (remove_dups _)) at 2. by apply list_fmap_ext.
Qed.

Lemma NoDup_groupby_sum_keys rows : NoDup (groupby_sum rows).*1.
Proof. rewrite groupby_sum_keys. apply NoDup_remove_dups. Qed.

Lemma elem_of_dropna_rows_keys rows k :
  k ∈ (dropna_rows (groupby_sum rows)).*1 → k ∈ omap group_key rows.
Proof.
  intros ([k' v] & -> & [_ Hin]%list_elem_of_filter)%list_elem_of_fmap.
  apply elem_of_remove_dups. rewrite <-groupby_sum_keys.
  by apply (list_elem_of_fmap_2 fst) in Hin.
Qed.

Lemma elem_of_index_pivot_table rows r :
  r ∈ index (pivot_table rows) → r ∈ (omap group_key rows).*1.
Proof.
  unfold pivot_table, unstack. cbn [index dropna_columns table_of].
  rewrite elem_of_sorted_unique.
  intros (k & -> & Hk%elem_of_dropna_rows_keys)%list_elem_of_fmap.
  by apply list_elem_of_fmap_2.
Qed.

Lemma elem_of_columns_pivot_table rows c :
  c ∈ column_labels (pivot_table rows) → c ∈ (omap group_key rows).*2.
Proof.
  unfold pivot_table, unstack.
  rewrite dropna_columns_table_of, column_labels_table_of.
  intros [_ Hc]%list_elem_of_filter. revert Hc. rewrite elem_of_sorted_unique.
  intros (k & -> & Hk%elem_of_dropna_rows_keys)%list_elem_of_fmap.
  by apply list_elem_of_fmap_2.
Qed.

Lemma omap_group_key (rows : list frame_row) :
  omap group_key rows = omap pair_key rows.*1.
Proof.
  induction rows as [|[[[a|] [b|]] w] rows IH]; cbn; by rewrite ?IH.
Qed.

Lemma fst_imap_pair {A B} (g : nat → B) (keys : list A) :
  (imap (λ i k, (k, g i)) keys).*1 = keys.
Proof.
  revert g. induction keys as [|k keys IH]; intros g; [done|].
  rewrite imap_cons. cbn. f_equal. apply (IH (g ∘ S)).
Qed.

(** The rows of the internal frame carry the label pairs of the two mapped
    columns, position by position. *)
Lemma crosstab_frame_keys xs ys w rows :
  crosstab_frame xs ys w = Ok rows →
  omap group_key rows = key_pairs xs ys.
Proof.
  unfold crosstab_frame, key_pairs. rewrite omap_group_key.
  destruct (zip xs ys) as [|k keys] eqn:Hk.
  - intros [= <-]. rewrite <-list_fmap_compose.
    by induction (weight_values w) as [|v vs IH].
  - destruct w as [s|a]; case_decide; intros Heq; try done;
      apply Ok_inj in Heq as <-.
    + by rewrite (fst_imap_pair (series_lookup s)).
    + rewrite fst_zip; [done|lia].
Qed.

(** ** Labels without rows *)

(** C3: when a label of the canonical label sequence for x, or for y, is the
    label of no row that goes into the aggregation, [quick_crosstab] returns
    no table: it raises, and once the weights are aligned the exception is
    the [KeyError] of a [.loc] selection. *)
Theorem missing_label_raises o x y sx sy lx ly l :
  df_columns (o_df o) !! x = Some sx →
  df_columns (o_df o) !! y = Some sy →
  variable_value_labels (o_meta o) !! x = Some lx →
  variable_value_labels (o_meta o) !! y = Some ly →
  (l ∈ dict_values lx ∧ l ∉ (key_pairs (series_map lx sx) (series_map ly sy)).*1) ∨
  (l ∈ dict_values ly ∧ l ∉ (key_pairs (series_map lx sx) (series_map ly sy)).*2) →
  ∃ e, (quick_crosstab x y o).1 = Raise e ∧
       ∀ rows,
         crosstab_frame (series_map lx sx) (series_map ly sy) (o_weights o) = Ok rows →
         ∃ missing, e = KeyError missing.
Proof.
  intros Hsx Hsy Hlx Hly Hl.
  destruct (crosstab_frame (series_map lx sx) (series_map ly sy) (o_weights o))
    as [rows|e] eqn:Hrows.
  - rewrite (quick_crosstab_rows o x y sx sy lx ly rows) by done.
    pose proof (crosstab_frame_keys _ _ _ _ Hrows) as Hkeys.
    destruct (filter _ (dict_values lx)) as [|m ms] eqn:Hfx; [|by eauto].
    destruct (filter _ (dict_values ly)) as [|m ms] eqn:Hfy; [|by eauto].
    apply filter_not_elem_nil in Hfx, Hfy.
    destruct Hl as [[Hin Hn]|[Hin Hn]]; destruct Hn; rewrite <-Hkeys.
    + by apply elem_of_index_pivot_table, Hfx.
    + by apply elem_of_columns_pivot_table, Hfy.
  - exists e. split; [|done].
    rewrite (quick_crosstab_unfold o x y sx sy lx ly) by done.
    unfold crosstab. by rewrite Hrows.
Qed.

Lemma missing_label_raises_witness :
  ∃ e,
    (quick_crosstab "x" "y"
       {| o_df := {| df_columns := {[ "x" := [Num 1; Num 1; Num 1];
                                      "y" := [Str "A"; Str "A"; Str "B"] ]} |};
          o_meta := example_meta;
          o_weights := example_weights |}).1 = Raise e ∧
    ∀ rows,
      crosstab_frame
        (series_map [(Num 1, "Yes"); (Num 2, "No")] [Num 1; Num 1; Num 1])
        (series_map [(Str "A", "A"); (Str "B", "B")] [Str "A"; Str "A"; Str "B"])
        example_weights = Ok rows →
      ∃ missing, e = KeyError missing.
Proof.
  apply (missing_label_raises
           {| o_df := {| df_columns := {[ "x" := [Num 1; Num 1; Num 1];
                                          "y" := [Str "A"; Str "A"; Str "B"] ]} |};
              o_meta := example_meta;
              o_weights := example_weights |}
           "x" "y" [Num 1; Num 1; Num 1] [Str "A"; Str "A"; Str "B"]
           [(Num 1, "Yes"); (Num 2, "No")] [(Str "A", "A"); (Str "B", "B")] "No");
    [reflexivity|reflexivity|reflexivity|reflexivity|].
  left. split.
  - apply (bool_decide_eq_true_1 _). by vm_compute.
  - apply (bool_decide_eq_false_1 _). by vm_compute.
Defined.

(** ** Sums *)

Lemma qsum_cons q l : qsum (q :: l) = q + qsum l.
Proof. done. Qed.

Lemma qsum_fmap_plus {A} (f g : A → Qc) l :
  qsum ((λ a, f a + g a) <$> l) = qsum (f <$> l) + qsum (g <$> l).
Proof.
  induction l as [|a l IH]; [cbn; ring|].
  rewrite !fmap_cons, !qsum_cons, IH. ring.
Qed.

Lemma qsum_fmap_zero {A} (l : list A) : qsum ((λ _, 0) <$> l) = 0.
Proof.
  induction l as [|a l IH]; [done|]. rewrite fmap_cons, qsum_cons, IH. ring.
Qed.

Lemma qsum_fmap_scale {A} (f : A → Qc) k l :
  qsum ((λ a, f a * k) <$> l) = qsum (f <$> l) * k.
Proof.
  induction l as [|a l IH]; [cbn; ring|].
  rewrite !fmap_cons, !qsum_cons, IH. ring.
Qed.

Lemma qsum_Permutation l k : l ≡ₚ k → qsum l = qsum k.
Proof.
  induction 1 as [|a l k _ IH|a b l|l k m _ IH1 _ IH2];
    rewrite ?qsum_cons; [done|by rewrite IH|ring|congruence].
Qed.

Lemma qsum_indicator {K} `{EqDecision K} (keys : list K) k0 v :
  NoDup keys → k0 ∈ keys →
  qsum ((λ k, if decide (k = k0) then v else 0) <$> keys) = v.
Proof.
  induction 1 as [|k keys Hk _ IH]; [by intros ?%elem_of_nil|].
  rewrite fmap_cons, qsum_cons. intros [<-|Hin]%elem_of_cons.
  - rewrite decide_True by done.
    rewrite (list_fmap_ext _ (λ _, 0) keys); [rewrite qsum_fmap_zero; ring|].
    intros _ k Hin%list_elem_of_lookup_2. rewrite decide_False; [done|]. by intros ->.
  - rewrite decide_False by (by intros ->). rewrite IH by done. ring.
Qed.

Lemma qsum_nonneg l : Forall (λ q, 0 ≤ q) l → 0 ≤ qsum l.
Proof.
  induction 1 as [|q l Hq _ IH]; [done|].
  rewrite qsum_cons, <-(Qcplus_0_l 0). by apply Qcplus_le_compat.
Qed.

Lemma qsum_zero l : Forall (λ q, 0 ≤ q) l → qsum l = 0 → Forall (λ q, q = 0) l.
Proof.
  induction 1 as [|q l Hq Hl IH]; [done|]. rewrite qsum_cons. intros Hsum.
  pose proof (qsum_nonneg l Hl) as Hnn.
  assert (q = 0) as ->.
  { apply Qcle_antisym; [|done]. rewrite <-Hsum.
    rewrite <-(Qcplus_0_r q) at 1. by apply Qcplus_le_compat. }
  constructor; [done|]. apply IH. by rewrite Qcplus_0_l in Hsum.
Qed.

(** A rows-by-key split of a sum: summing per key and then over the keys
    gives the sum over the rows that have a key. *)
Lemma qsum_partition {A K} `{EqDecision K} (f : A → option K) (g : A → Qc)
    (keys : list K) (l : list A) :
  NoDup keys →
  (∀ a k, a ∈ l → f a = Some k → k ∈ keys) →
  qsum ((λ k, qsum (omap (λ a, if decide (f a = Some k) then Some (g a) else None) l))
          <$> keys) =
  qsum (omap (λ a, if f a is Some _ then Some (g a) else None) l).
Proof.
  intros Hnd. induction l as [|a l IH]; intros Hin.
  { cbn. apply qsum_fmap_zero. }
  cbn [omap list_omap].
  destruct (f a) as [k0|] eqn:Hfa.
  - rewrite (list_fmap_ext _
      (λ k, (if decide (k = k0) then g a else 0) +
            qsum (omap (λ a, if decide (f a = Some k) then Some (g a) else None) l))
      keys); last first.
    { intros _ k _. destruct (decide (k = k0)) as [->|Hne].
      - by rewrite decide_True.
      - rewrite decide_False by congruence. ring. }
    rewrite qsum_fmap_plus, IH by (intros; eapply Hin; [by right|done]).
    rewrite qsum_indicator; [done|done|]. eapply Hin; [by left|done].
  - by rewrite <-IH by (intros; eapply Hin; [by right|done]).
Qed.

Lemma sum_skipna_cons v l :
  sum_skipna (v :: l) = if isnan v then sum_skipna l else fadd v (sum_skipna l).
Proof. unfold sum_skipna. rewrite filter_cons. by destruct v. Qed.

(** Over non-negative or missing weights the NaN-skipping sum is the exact
    sum of the numbers. *)
Lemma sum_skipna_weight_ok l :
  Forall weight_ok l → sum_skipna l = Fin (qsum (weight_of <$> l)).
Proof.
  induction 1 as [|v l Hv _ IH]; [done|].
  rewrite sum_skipna_cons, fmap_cons, qsum_cons, IH.
  destruct v; cbn in *; [done|done|done|]. by rewrite Qcplus_0_l.
Qed.

Lemma sum_skipna_nonneg l :
  Forall weight_ok l → weight_ok (sum_skipna l).
Proof.
  intros Hl. rewrite sum_skipna_weight_ok by done. cbn.
  apply qsum_nonneg, Forall_fmap. eapply Forall_impl; [done|].
  by intros [].
Qed.

Lemma filter_all {A} (P : A → Prop) `{!∀ a, Decision (P a)} (l : list A) :
  Forall P l → filter P l = l.
Proof.
  induction 1 as [|a l Ha _ IH]; [done|].
  by rewrite filter_cons, decide_True, IH.
Qed.

(** ** The aggregate over well-formed weights *)

Section weights_ok.
Context (rows : list frame_row) (Hrows : Forall weight_ok rows.*2).

Lemma group_values_weight_ok k : Forall weight_ok (group_values k rows).
Proof.
  unfold group_values. induction rows as [|r rs IH]; [done|].
  apply Forall_cons in Hrows as [Hr Hrs]. cbn.
  case_decide; cbn; [constructor|]; auto.
Qed.

Lemma column_values_weight_ok c : Forall weight_ok (column_values rows c).
Proof.
  unfold column_values. induction rows as [|r rs IH]; [done|].
  apply Forall_cons in Hrows as [Hr Hrs]. cbn.
  destruct (group_key r) as [[a b]|]; [case_decide|]; cbn; [constructor|..]; auto.
Qed.

Lemma dropna_rows_weight_ok : dropna_rows (groupby_sum rows) = groupby_sum rows.
Proof.
  apply filter_all, Forall_forall. intros [k v].
  intros (k' & [= -> ->] & _)%list_elem_of_fmap. cbn.
  by rewrite sum_skipna_weight_ok by apply group_values_weight_ok.
Qed.

Lemma group_values_nil k : k ∉ omap group_key rows → group_values k rows = [].
Proof.
  clear Hrows. unfold group_values. induction rows as [|r rs IH]; [done|].
  cbn. destruct (group_key r) as [k'|] eqn:Hr.
  - intros [Hne Hn]%not_elem_of_cons. rewrite decide_False by congruence. auto.
  - intros Hn. rewrite decide_False by done. auto.
Qed.

Lemma agg_cell_weight_ok r c :
  agg_cell rows r c =
  if decide ((r, c) ∈ omap group_key rows)
  then Fin (qsum (weight_of <$> group_values (r, c) rows))
  else NaN.
Proof.
  unfold agg_cell. rewrite dropna_rows_weight_ok.
  case_decide as Hk.
  - rewrite <-sum_skipna_weight_ok by apply group_values_weight_ok.
    erewrite (elem_of_list_to_map_1 (groupby_sum rows)); [done|..].
    + apply NoDup_groupby_sum_keys.
    + unfold groupby_sum.
      apply (list_elem_of_fmap_2 (λ k, (k, sum_skipna (group_values k rows)))).
      by apply elem_of_remove_dups.
  - rewrite (proj1 (not_elem_of_list_to_map _ _)); [done|].
    by rewrite groupby_sum_keys, elem_of_remove_dups.
Qed.

Lemma weight_of_agg_cell r c :
  weight_of (agg_cell rows r c) = qsum (weight_of <$> group_values (r, c) rows).
Proof.
  rewrite agg_cell_weight_ok. case_decide as Hk; [done|].
  by rewrite group_values_nil.
Qed.

Lemma agg_cell_nonneg r c : weight_ok (agg_cell rows r c).
Proof.
  rewrite agg_cell_weight_ok. case_decide; [|done].
  rewrite <-sum_skipna_weight_ok by apply group_values_weight_ok.
  apply sum_skipna_nonneg, group_values_weight_ok.
Qed.

Lemma elem_of_index_weight_ok r :
  r ∈ index (pivot_table rows) ↔ r ∈ (omap group_key rows).*1.
Proof.
  split; [apply elem_of_index_pivot_table|].
  unfold pivot_table, unstack. cbn [index dropna_columns table_of].
  rewrite elem_of_sorted_unique, dropna_rows_weight_ok, groupby_sum_keys.
  intros (k & -> & Hk)%list_elem_of_fmap.
  by apply list_elem_of_fmap_2, elem_of_remove_dups.
Qed.

Lemma elem_of_columns_weight_ok c :
  c ∈ column_labels (pivot_table rows) ↔ c ∈ (omap group_key rows).*2.
Proof.
  split; [apply elem_of_columns_pivot_table|].
  intros ([r c'] & -> & Hk)%list_elem_of_fmap. cbn [snd].
  unfold pivot_table, unstack.
  rewrite dropna_columns_table_of, column_labels_table_of.
  apply list_elem_of_filter. split.
  - apply not_true_is_false. intros Hall%Is_true_true%forallb_True.
    rewrite Forall_fmap, Forall_forall in Hall.
    specialize (Hall r). cbn in Hall.
    fold (agg_cell rows r c') in Hall. rewrite agg_cell_weight_ok in Hall.
    rewrite decide_True in Hall by done. apply Hall.
    rewrite elem_of_sorted_unique, dropna_rows_weight_ok, groupby_sum_keys.
    by apply (list_elem_of_fmap_2 fst (remove_dups _) (r, c')), elem_of_remove_dups.
  - rewrite elem_of_sorted_unique, dropna_rows_weight_ok, groupby_sum_keys.
    by apply (list_elem_of_fmap_2 snd (remove_dups _) (r, c')), elem_of_remove_dups.
Qed.

(** The row key of a frame row that falls under column [c]. *)
Lemma group_values_by_row r c :
  weight_of <$> group_values (r, c) rows =
  omap (λ row, if decide ((match group_key row with
                           | Some (a, b) => if decide (b = c) then Some a else None
                           | None => None
                           end) = Some r)
               then Some (weight_of row.2) else None) rows.
Proof.
  clear Hrows. unfold group_values. induction rows as [|row rs IH]; [done|].
  cbn. destruct (group_key row) as [[a b]|].
  - destruct (decide (b = c)) as [->|Hb].
    + destruct (decide (a = r)) as [->|Ha].
      * rewrite !decide_True by done. cbn. by rewrite IH.
      * rewrite !decide_False by congruence. by rewrite IH.
    + rewrite !decide_False by congruence. by rewrite IH.
  - rewrite !decide_False by done. by rewrite IH.
Qed.

Lemma column_values_by_row c :
  weight_of <$> column_values rows c =
  omap (λ row, if (match group_key row with
                   | Some (a, b) => if decide (b = c) then Some a else None
                   | None => None
                   end) is Some _
               then Some (weight_of row.2) else None) rows.
Proof.
  clear Hrows. unfold column_values. induction rows as [|row rs IH]; [done|].
  cbn. destruct (group_key row) as [[a b]|]; [|by rewrite IH].
  destruct (decide (b = c)); cbn; by rewrite IH.
Qed.

(** The column sum that normalisation divides by is the total weight of the
    rows under that column label. *)
Lemma column_sum_weight_ok c :
  sum_skipna ((λ r, agg_cell rows r c) <$> index (pivot_table rows)) =
  column_weight rows c.
Proof.
  unfold column_weight.
  rewrite !sum_skipna_weight_ok;
    [|apply column_values_weight_ok
     |apply Forall_fmap, Forall_forall; intros; apply agg_cell_nonneg].
  f_equal. rewrite <-list_fmap_compose.
  rewrite (list_fmap_ext _
             (λ r, qsum (weight_of <$> group_values (r, c) rows)) _);
    [|intros; apply weight_of_agg_cell].
  rewrite (list_fmap_ext _ _ _ (λ _ r _, f_equal qsum (group_values_by_row r c))).
  rewrite column_values_by_row.
  apply (qsum_partition _ (λ row : frame_row, weight_of row.2));
    [apply NoDup_index_pivot_table|].
  intros row r Hrow Hkey. apply elem_of_index_weight_ok.
  destruct (group_key row) as [[a b]|] eqn:Hg; [|done].
  case_decide; simplify_eq.
  apply (list_elem_of_fmap_2 fst _ (r, c)), list_elem_of_omap. eauto.
Qed.

End weights_ok.

Lemma sum_skipna_Fin (l : list Qc) : sum_skipna (Fin <$> l) = Fin (qsum l).
Proof.
  induction l as [|q l IH]; [done|].
  by rewrite fmap_cons, sum_skipna_cons, IH.
Qed.

Lemma qsum_all_zero l : Forall (λ q, q = 0) l → qsum l = 0.
Proof.
  induction 1 as [|q l -> _ IH]; [done|]. rewrite qsum_cons, IH. ring.
Qed.

Lemma hundred_neq_0 : hundred ≠ 0.
Proof. by intros [=]. Qed.

Lemma group_values_column_values (rows : list frame_row) r c v :
  v ∈ group_values (r, c) rows → v ∈ column_values rows c.
Proof.
  unfold group_values, column_values. rewrite !list_elem_of_omap.
  intros (row & Hrow & Hv). exists row. split; [done|].
  case_decide as Hk; [|done]. rewrite Hk. by rewrite decide_True.
Qed.

(** Weights within the float64 range are non-negative or missing. *)
Lemma min_weight_pos : 0 < min_weight.
Proof. by vm_compute. Qed.

Lemma in_float_range_weight_ok ws : in_float_range ws → Forall weight_ok ws.
Proof.
  intros [Hws _]. eapply Forall_impl; [exact Hws|].
  intros [q| | |]; cbn; try done. intros [->|Hq]; [done|].
  apply Qclt_le_weak. eapply Qclt_le_trans; [apply min_weight_pos|done].
Qed.

Lemma crosstab_frame_weight_ok xs ys w rows :
  Forall weight_ok (weight_values w) →
  crosstab_frame xs ys w = Ok rows →
  Forall weight_ok rows.*2.
Proof.
  intros Hw. unfold crosstab_frame.
  destruct (zip xs ys) as [|k keys].
  { intros <-%Ok_inj. rewrite <-list_fmap_compose.
    by rewrite (list_fmap_ext _ id _ (λ _ _ _, eq_refl)), list_fmap_id. }
  destruct w as [s|a]; case_decide; intros Heq; try done;
    apply Ok_inj in Heq as <-.
  - apply Forall_forall. intros v ([p v'] & -> & Hin)%list_elem_of_fmap.
    apply elem_of_lookup_imap in Hin as (i & k' & [= -> ->] & _). cbn.
    unfold series_lookup.
    destruct (list_to_map s !! i) as [v|] eqn:Hv; [|done].
    apply elem_of_list_to_map_2 in Hv.
    rewrite Forall_forall in Hw. apply Hw. cbn.
    by apply (list_elem_of_fmap_2 snd s (i, v)).
  - cbn in Hw. rewrite snd_zip by lia. done.
Qed.

Lemma dict_get_values (d : value_labels) k l :
  dict_get d k = Some l → l ∈ dict_values d.
Proof.
  unfold dict_values.
  induction d as [|[k' l'] d IH]; [done|]. cbn.
  case_decide; [intros [= ->]; by left|]. intros ?. right. auto.
Qed.

Lemma key_pairs_fst_labels lx sx ys a :
  a ∈ (key_pairs (series_map lx sx) ys).*1 → a ∈ dict_values lx.
Proof.
  intros ([a' b] & -> & Hin)%list_elem_of_fmap.
  apply list_elem_of_omap in Hin as ([[?|] [?|]] & Hin & [= -> ->]).
  apply elem_of_zip_l in Hin.
  apply list_elem_of_fmap in Hin as (v & Hv & _).
  by eapply dict_get_values.
Qed.

(** ** The cells of a returned table *)

(** No cell of a returned table is NaN, whatever the weights. *)
Lemma percent_cell_not_nan rows r c : isnan (percent_cell rows r c) = false.
Proof.
  unfold percent_cell.
  destruct (fdiv _ _) as [q| | |]; cbn; try done;
    rewrite decide_False by apply hundred_neq_0; unfold signed_inf;
    by case_decide.
Qed.

Section percent_cell.
Context (rows : list frame_row) (Hrows : Forall weight_ok rows.*2).

Lemma column_weight_Fin c :
  column_weight rows c = Fin (qsum (weight_of <$> column_values rows c)).
Proof. apply sum_skipna_weight_ok, column_values_weight_ok, Hrows. Qed.

Lemma agg_cell_zero_weight r c :
  column_weight rows c = Fin 0 →
  agg_cell rows r c = Fin 0 ∨ agg_cell rows r c = NaN.
Proof.
  intros Hc. rewrite agg_cell_weight_ok by done.
  case_decide as Hk; [left|by right]. f_equal.
  rewrite column_weight_Fin in Hc.
  apply qsum_all_zero, Forall_fmap, Forall_forall.
  intros v Hv%group_values_column_values. cbn.
  assert (qsum (weight_of <$> column_values rows c) = 0) as Hz by congruence.
  apply qsum_zero in Hz.
  - rewrite Forall_fmap, Forall_forall in Hz. by apply Hz.
  - apply Forall_fmap. eapply Forall_impl;
      [apply column_values_weight_ok, Hrows|]. by intros [].
Qed.

(** What [table / table.sum()] leaves in a column without weight. *)
Lemma normalized_zero_weight r c :
  column_weight rows c = Fin 0 →
  fdiv (agg_cell rows r c) (column_weight rows c) = NaN.
Proof.
  intros Hc. rewrite Hc.
  destruct (agg_cell_zero_weight r c Hc) as [-> | ->]; [|done].
  cbn. by rewrite !decide_True.
Qed.

Lemma percent_cell_zero_weight r c :
  column_weight rows c = Fin 0 → percent_cell rows r c = Fin 0.
Proof.
  intros Hc. unfold percent_cell.
  rewrite column_sum_weight_ok, normalized_zero_weight by done.
  cbn. f_equal; apply Qcmult_0_l.
Qed.

Lemma percent_cell_share r c w :
  column_weight rows c = Fin w → w ≠ 0 →
  percent_cell rows r c = Fin (weight_of (agg_cell rows r c) * (/ w * hundred)).
Proof.
  intros Hc Hw. unfold percent_cell.
  rewrite column_sum_weight_ok, Hc by done.
  rewrite agg_cell_weight_ok by done. case_decide as Hk; cbn.
  - rewrite decide_False by done. cbn. f_equal. unfold Qcdiv. ring.
  - f_equal. ring.
Qed.

End percent_cell.

(** ** Column sums *)

(** C1, as the spec states it, fails on the code: a column whose total weight
    is zero comes back with the number 0 in every cell, not NaN; and when two
    codes of x share a label, [.loc] repeats that row and the column sums to
    200. *)
Lemma zero_weight_column_is_zero :
  (crosstab_frame
     (series_map [(Num 1, "Yes"); (Num 2, "No")] [Num 1; Num 2; Num 1])
     (series_map [(Str "A", "A"); (Str "B", "B")] [Str "A"; Str "A"; Str "B"])
     zero_b_weights = Ok zero_b_rows ∧
   column_weight zero_b_rows "B" = Fin 0 ∧
   call example_df example_meta "x" "y" zero_b_weights = Ok zero_b_table ∧
   columns zero_b_table !! 1%nat = Some ("B", [Fin 0; Fin 0]) ∧
   ¬ Forall (λ v, isnan v = true) [Fin 0; Fin 0]) ∧
  (call shared_label_df shared_label_meta "x" "y" (WArray [Fin 1; Fin 1]) =
     Ok {| index := ["Yes"; "Yes"];
           columns := [("A", [Fin hundred; Fin hundred])] |} ∧
   sum_skipna [Fin hundred; Fin hundred] = Fin (Q2Qc 200)).
Proof.
  split_and!; [done|compute_eq|compute_eq|done| |compute_eq|compute_eq].
  by intros [[=] _]%Forall_cons.
Qed.

(** C1 (amended): for a valid input (every weight missing, zero or a number
    of at least [2^-500], the weights adding up to [2^500] at most, so that
    float64 neither overflows nor underflows on them; no label repeated in
    the label sequence for x), every column of the returned table whose total
    weight (over the rows that carry a label on both axes) is not zero sums
    to 100, rounding aside (the sum is taken in exact arithmetic), and a
    column whose total weight is zero holds 0 in every cell. *)
Theorem column_percentages o x y sx sy lx ly rows t :
  df_columns (o_df o) !! x = Some sx →
  df_columns (o_df o) !! y = Some sy →
  variable_value_labels (o_meta o) !! x = Some lx →
  variable_value_labels (o_meta o) !! y = Some ly →
  crosstab_frame (series_map lx sx) (series_map ly sy) (o_weights o) = Ok rows →
  in_float_range (weight_values (o_weights o)) →
  NoDup (dict_values lx) →
  (quick_crosstab x y o).1 = Ok t →
  ∀ c vals, (c, vals) ∈ columns t →
    (column_weight rows c ≠ Fin 0 → sum_skipna vals = Fin hundred) ∧
    (column_weight rows c = Fin 0 → Forall (λ v, v = Fin 0) vals).
Proof.
  intros Hsx Hsy Hlx Hly Hrows Hw%in_float_range_weight_ok Hnd Ht c vals Hin.
  apply quick_crosstab_Ok in Ht
    as (sx' & sy' & lx' & ly' & rows' & ? & ? & ? & ? & Hrows' & Hsubx & _ & ->).
  simplify_eq.
  assert (rows' = rows) as -> by congruence. clear Hrows'.
  pose proof (crosstab_frame_weight_ok _ _ _ _ Hw Hrows) as Hok.
  apply list_elem_of_fmap in Hin as (c' & [= <- ->] & Hc).
  split.
  - intros Hne. rewrite column_weight_Fin in Hne by done.
    set (w := qsum (weight_of <$> column_values rows c)) in *.
    assert (w ≠ 0) as Hw0 by congruence.
    rewrite (list_fmap_ext _
               (Fin ∘ (λ r, weight_of (agg_cell rows r c) * (/ w * hundred))) _);
      [|intros; by apply percent_cell_share, Hw0; [|apply column_weight_Fin]].
    rewrite list_fmap_compose, sum_skipna_Fin. f_equal.
    rewrite (qsum_fmap_scale (λ r, weight_of (agg_cell rows r c))).
    assert (qsum ((λ r, weight_of (agg_cell rows r c)) <$> dict_values lx) = w) as ->.
    { pose proof (column_sum_weight_ok rows Hok c) as Hsum.
      rewrite column_weight_Fin, sum_skipna_weight_ok in Hsum;
        [|apply Forall_fmap, Forall_forall; intros; by apply agg_cell_nonneg|done].
      rewrite <-list_fmap_compose in Hsum. injection Hsum as Hsum.
      fold w in Hsum. rewrite <-Hsum. apply qsum_Permutation, fmap_Permutation.
      apply NoDup_Permutation; [done|apply NoDup_index_pivot_table|].
      intros r. split; [apply Hsubx|].
      intros Hr%(elem_of_index_pivot_table rows).
      rewrite (crosstab_frame_keys _ _ _ _ Hrows) in Hr.
      by apply key_pairs_fst_labels in Hr. }
    by field.
  - intros Hz. apply Forall_fmap, Forall_forall. intros r _. cbn.
    by apply percent_cell_zero_weight.
Qed.

Lemma column_percentages_witness :
  sum_skipna [Fin (Q2Qc 50); Fin (Q2Qc 50)] = Fin hundred.
Proof.
  refine (proj1 (column_percentages example_objects "x" "y"
                   [Num 1; Num 2; Num 1] [Str "A"; Str "A"; Str "B"]
                   [(Num 1, "Yes"); (Num 2, "No")] [(Str "A", "A"); (Str "B", "B")]
                   [ (Some "Yes", Some "A", Fin 2); (Some "No", Some "A", Fin 2);
                     (Some "Yes", Some "B", Fin (Q2Qc 5)) ]
                   example_table _ _ _ _ _ _ _ _
                   "A" [Fin (Q2Qc 50); Fin (Q2Qc 50)] _) _);
    try reflexivity.
  - in_range.
  - apply (bool_decide_eq_true_1 _). by vm_compute.
  - compute_eq.
  - by left.
  - by vm_compute.
Defined.

(** ** Columns without weight *)

Section returns.
Context (o : objects) (x y : string) (sx sy : list scalar) (lx ly : value_labels).
Context (rows : list frame_row).
Hypothesis Hsx : df_columns (o_df o) !! x = Some sx.
Hypothesis Hsy : df_columns (o_df o) !! y = Some sy.
Hypothesis Hlx : variable_value_labels (o_meta o) !! x = Some lx.
Hypothesis Hly : variable_value_labels (o_meta o) !! y = Some ly.
Hypothesis Hrows :
  crosstab_frame (series_map lx sx) (series_map ly sy) (o_weights o) = Ok rows.
Hypothesis Hw : Forall weight_ok (weight_values (o_weights o)).

(** With well-formed weights, a call whose canonical labels all have a row
    in the aggregation returns; the value of no weight can make it raise. *)
Lemma quick_crosstab_returns :
  dict_values lx ⊆ (key_pairs (series_map lx sx) (series_map ly sy)).*1 →
  dict_values ly ⊆ (key_pairs (series_map lx sx) (series_map ly sy)).*2 →
  (quick_crosstab x y o).1 =
  Ok (table_of (dict_values lx) (dict_values ly) (percent_cell rows)).
Proof.
  intros Hx Hy.
  pose proof (crosstab_frame_weight_ok _ _ _ _ Hw Hrows) as Hok.
  rewrite (quick_crosstab_rows o x y sx sy lx ly rows) by done.
  rewrite (proj2 (filter_not_elem_nil _ _)), (proj2 (filter_not_elem_nil _ _)).
  - done.
  - intros c Hc%Hy. apply elem_of_columns_weight_ok; [done|].
    by rewrite (crosstab_frame_keys _ _ _ _ Hrows).
  - intros r Hr%Hx. apply elem_of_index_weight_ok; [done|].
    by rewrite (crosstab_frame_keys _ _ _ _ Hrows).
Qed.

End returns.

(** C6, as the spec states it, fails on the code: the NaN that dividing a
    zero-weight column by its sum produces is not propagated; the returned
    cell holds 0. *)
Lemma zero_weight_nan_not_propagated :
  crosstab_frame
    (series_map [(Num 1, "Yes")] [Num 1]) (series_map [(Str "A", "A")] [Str "A"])
    (WArray [Fin 0]) = Ok single_rows ∧
  column_weight single_rows "A" = Fin 0 ∧
  fdiv (agg_cell single_rows "Yes" "A") (column_weight single_rows "A") = NaN ∧
  call single_df single_meta "x" "y" (WArray [Fin 0]) =
    Ok {| index := ["Yes"]; columns := [("A", [Fin 0])] |} ∧
  isnan (Fin 0) = false.
Proof. split_and!; [done|compute_eq|by vm_compute|compute_eq|done]. Qed.

(** C6 (amended): for an input with well-formed weights whose canonical
    labels all have a row in the aggregation, a column-factor value with zero
    total weight does not make [quick_crosstab] raise: the call returns a
    table; the NaN that the divide-by-zero normalisation leaves in that
    column is replaced by 0, so the column holds 0 in every cell and no cell
    of the returned table is NaN. *)
Theorem zero_weight_column_returns o x y sx sy lx ly rows c :
  df_columns (o_df o) !! x = Some sx →
  df_columns (o_df o) !! y = Some sy →
  variable_value_labels (o_meta o) !! x = Some lx →
  variable_value_labels (o_meta o) !! y = Some ly →
  crosstab_frame (series_map lx sx) (series_map ly sy) (o_weights o) = Ok rows →
  Forall weight_ok (weight_values (o_weights o)) →
  dict_values lx ⊆ (key_pairs (series_map lx sx) (series_map ly sy)).*1 →
  dict_values ly ⊆ (key_pairs (series_map lx sx) (series_map ly sy)).*2 →
  c ∈ dict_values ly →
  column_weight rows c = Fin 0 →
  ∃ t,
    (quick_crosstab x y o).1 = Ok t ∧
    (∀ r, fdiv (agg_cell rows r c) (column_weight rows c) = NaN) ∧
    c ∈ column_labels t ∧
    (∀ vals, (c, vals) ∈ columns t → Forall (λ v, v = Fin 0) vals) ∧
    (∀ col, col ∈ columns t → Forall (λ v, isnan v = false) col.2).
Proof.
  intros Hsx Hsy Hlx Hly Hrows Hw Hx Hy Hc Hz.
  pose proof (crosstab_frame_weight_ok _ _ _ _ Hw Hrows) as Hok.
  eexists. split; [by apply (quick_crosstab_returns o x y sx sy lx ly rows)|].
  split_and!.
  - intros r. by apply normalized_zero_weight.
  - by rewrite column_labels_table_of.
  - intros vals (c' & [= <- ->] & _)%list_elem_of_fmap.
    apply Forall_fmap, Forall_forall. intros r _. cbn.
    by apply percent_cell_zero_weight.
  - intros col (c' & -> & _)%list_elem_of_fmap. cbn.
    apply Forall_fmap, Forall_forall. intros r _. apply percent_cell_not_nan.
Qed.

Lemma zero_weight_column_returns_witness :
  ∃ t,
    (quick_crosstab "x" "y"
       {| o_df := single_df; o_meta := single_meta;
          o_weights := WArray [Fin 0] |}).1 = Ok t ∧
    (∀ r, fdiv (agg_cell single_rows r "A") (column_weight single_rows "A") = NaN) ∧
    "A" ∈ column_labels t ∧
    (∀ vals, ("A", vals) ∈ columns t → Forall (λ v, v = Fin 0) vals) ∧
    (∀ col, col ∈ columns t → Forall (λ v, isnan v = false) col.2).
Proof.
  apply (zero_weight_column_returns
           {| o_df := single_df; o_meta := single_meta;
              o_weights := WArray [Fin 0] |}
           "x" "y" [Num 1] [Str "A"] [(Num 1, "Yes")] [(Str "A", "A")]);
    [reflexivity|reflexivity|reflexivity|reflexivity|reflexivity| | | | |].
  - repeat constructor; by vm_compute.
  - apply (bool_decide_eq_true_1 _). by vm_compute.
  - apply (bool_decide_eq_true_1 _). by vm_compute.
  - apply (bool_decide_eq_true_1 _). by vm_compute.
  - compute_eq.
Defined.

(** ** Rows without a label *)






Lemma imap_zip_seq {A B} (g : nat → B) (keys : list A) :
  imap (λ i k, (k, g i)) keys = zip keys (g <$> seq 0 (length keys)).
Proof.
  revert g. induction keys as [|k keys IH]; intros g; [done|].
  rewrite imap_cons. cbn [length seq fmap list_fmap zip_with]. f_equal.
  rewrite <-fmap_S_seq, <-list_fmap_compose. apply (IH (g ∘ S)).
Qed.

Lemma array_row_weight a :
  row_weight (WArray a) <$> seq 0 (length a) = a.
Proof.
  apply list_eq. intros i. rewrite list_lookup_fmap. cbn.
  destruct (a !! i) as [v|] eqn:Hi.
  - rewrite lookup_seq_lt by (by eapply lookup_lt_Some). cbn. by rewrite Hi.
  - rewrite lookup_seq_ge; [done|]. by apply lookup_ge_None.
Qed.

(** The frame [crosstab] builds from weights that fit: the rows in table
    order, each with the weight aligned to its position. *)
Lemma crosstab_frame_fit xs ys w :
  weights_fit (length (zip xs ys)) w →
  ∃ rows,
    crosstab_frame xs ys w = Ok rows ∧
    groupby_sum rows =
      groupby_sum (zip (zip xs ys) (row_weight w <$> seq 0 (length (zip xs ys)))).
Proof.
  unfold crosstab_frame. destruct (zip xs ys) as [|k keys] eqn:Hk.
  - intros _. eexists. split; [done|]. unfold groupby_sum.
    rewrite omap_group_key, <-list_fmap_compose.
    by induction (weight_values w).
  - destruct w as [s|a]; cbn [weights_fit]; intros Hfit;
      rewrite decide_True by done; eexists; (split; [done|]).
    + by rewrite (imap_zip_seq (series_lookup s)).
    + by rewrite <-Hfit, array_row_weight.
Qed.





(** * Further properties of [quick_crosstab] *)

(** ** Shape and content of a returned table *)

(** X1: whatever the table, the labels and the weights, a table that
    [quick_crosstab] returns contains no NaN: normalisation fills every
    missing value before the table is reordered and scaled. *)
Theorem returned_table_has_no_nan o x y t col :
  (quick_crosstab x y o).1 = Ok t →
  col ∈ columns t →
  Forall (λ v, isnan v = false) col.2.
Proof.
  intros (sx & sy & lx & ly & rows & _ & _ & _ & _ & _ & _ & _ & ->)
    %quick_crosstab_Ok.
  intros (c & -> & _)%list_elem_of_fmap. cbn.
  apply Forall_fmap, Forall_forall. intros r _. apply percent_cell_not_nan.
Qed.

Lemma returned_table_has_no_nan_witness :
  Forall (λ v, isnan v = false) [Fin (Q2Qc 100); Fin 0].
Proof.
  apply (returned_table_has_no_nan example_objects "x" "y" example_table
           ("B", [Fin (Q2Qc 100); Fin 0])).
  - compute_eq.
  - right. left.
Defined.

(** X2: a returned table is rectangular: every column has one cell per row
    label. *)
Theorem returned_table_rectangular o x y t col :
  (quick_crosstab x y o).1 = Ok t →
  col ∈ columns t →
  length col.2 = length (index t).
Proof.
  intros (sx & sy & lx & ly & rows & _ & _ & _ & _ & _ & _ & _ & ->)
    %quick_crosstab_Ok.
  intros (c & -> & _)%list_elem_of_fmap. cbn. by rewrite length_fmap.
Qed.

Lemma returned_table_rectangular_witness :
  length [Fin (Q2Qc 50); Fin (Q2Qc 50)] = length ["Yes"; "No"].
Proof.
  apply (returned_table_rectangular example_objects "x" "y" example_table
           ("A", [Fin (Q2Qc 50); Fin (Q2Qc 50)])).
  - compute_eq.
  - left.
Defined.

Lemma agg_cell_absent rows r c :
  (r, c) ∉ omap group_key rows → agg_cell rows r c = NaN.
Proof.
  intros Hn. unfold agg_cell.
  rewrite (proj1 (not_elem_of_list_to_map _ _)); [done|].
  intros Hin. by apply Hn, elem_of_dropna_rows_keys.
Qed.

(** Reading the cell at row position [i] and column position [j] of a
    frame given by its cells. *)
Lemma table_of_lookup idx cols f i j r c vals :
  index (table_of idx cols f) !! i = Some r →
  columns (table_of idx cols f) !! j = Some (c, vals) →
  vals !! i = Some (f r c).
Proof.
  cbn. intros Hi Hj. rewrite list_lookup_fmap in Hj.
  destruct (cols !! j) as [c'|]; simplify_eq/=.
  by rewrite list_lookup_fmap, Hi.
Qed.

(** X3: a pair of labels that no row of the table carries has the cell 0 in
    the returned table, for any weights: the cell is present, and it is a
    number. *)
Theorem unobserved_pair_is_zero o x y sx sy lx ly t i j r c vals :
  df_columns (o_df o) !! x = Some sx →
  df_columns (o_df o) !! y = Some sy →
  variable_value_labels (o_meta o) !! x = Some lx →
  variable_value_labels (o_meta o) !! y = Some ly →
  (quick_crosstab x y o).1 = Ok t →
  index t !! i = Some r →
  columns t !! j = Some (c, vals) →
  (r, c) ∉ key_pairs (series_map lx sx) (series_map ly sy) →
  vals !! i = Some (Fin 0).
Proof.
  intros Hsx Hsy Hlx Hly Ht Hi Hj Hn.
  apply quick_crosstab_Ok in Ht
    as (sx' & sy' & lx' & ly' & rows & ? & ? & ? & ? & Hrows & _ & _ & ->).
  simplify_eq.
  rewrite (table_of_lookup _ _ _ _ _ _ _ _ Hi Hj). f_equal.
  unfold percent_cell. rewrite agg_cell_absent.
  - cbn. f_equal; apply Qcmult_0_l.
  - by rewrite (crosstab_frame_keys _ _ _ _ Hrows).
Qed.

Lemma unobserved_pair_is_zero_witness :
  [Fin (Q2Qc 100); Fin 0] !! 1%nat = Some (Fin 0).
Proof.
  apply (unobserved_pair_is_zero example_objects "x" "y"
           [Num 1; Num 2; Num 1] [Str "A"; Str "A"; Str "B"]
           [(Num 1, "Yes"); (Num 2, "No")] [(Str "A", "A"); (Str "B", "B")]
           example_table 1%nat 1%nat "No" "B");
    [reflexivity|reflexivity|reflexivity|reflexivity|compute_eq
    |reflexivity|reflexivity|].
  apply (bool_decide_eq_false_1 _). by vm_compute.
Defined.

(** X4: over weights within the float64 range, the cell at row label [r]
    and column label [c] of a returned table is, rounding aside, 100 times
    the weight of the rows labelled [(r, c)] over the weight of the rows
    labelled [c], when the latter is not zero. *)
Theorem cell_is_weighted_share o x y sx sy lx ly rows t i j r c vals w :
  df_columns (o_df o) !! x = Some sx →
  df_columns (o_df o) !! y = Some sy →
  variable_value_labels (o_meta o) !! x = Some lx →
  variable_value_labels (o_meta o) !! y = Some ly →
  crosstab_frame (series_map lx sx) (series_map ly sy) (o_weights o) = Ok rows →
  in_float_range (weight_values (o_weights o)) →
  (quick_crosstab x y o).1 = Ok t →
  index t !! i = Some r →
  columns t !! j = Some (c, vals) →
  column_weight rows c = Fin w →
  w ≠ 0 →
  vals !! i =
  Some (Fin (qsum (weight_of <$> group_values (r, c) rows) / w * hundred)).
Proof.
  intros Hsx Hsy Hlx Hly Hrows Hw%in_float_range_weight_ok Ht Hi Hj Hc Hw0.
  pose proof (crosstab_frame_weight_ok _ _ _ _ Hw Hrows) as Hok.
  apply quick_crosstab_Ok in Ht
    as (sx' & sy' & lx' & ly' & rows' & ? & ? & ? & ? & Hrows' & _ & _ & ->).
  simplify_eq. assert (rows' = rows) as -> by congruence.
  rewrite (table_of_lookup _ _ _ _ _ _ _ _ Hi Hj). f_equal.
  rewrite (percent_cell_share rows Hok r c w) by done.
  rewrite weight_of_agg_cell by done. f_equal. unfold Qcdiv. ring.
Qed.

Lemma cell_is_weighted_share_witness :
  [Fin (Q2Qc 50); Fin (Q2Qc 50)] !! 0%nat =
  Some (Fin (qsum (weight_of <$> group_values ("Yes", "A") example_rows)
             / Q2Qc 4 * hundred)).
Proof.
  apply (cell_is_weighted_share example_objects "x" "y"
           [Num 1; Num 2; Num 1] [Str "A"; Str "A"; Str "B"]
           [(Num 1, "Yes"); (Num 2, "No")] [(Str "A", "A"); (Str "B", "B")]
           example_rows example_table 0%nat 0%nat "Yes" "A");
    try reflexivity.
  - in_range.
  - compute_eq.
  - by vm_compute.
Defined.

Lemma Qcinv_nonneg (q : Qc) : 0 ≤ q → 0 ≤ / q.
Proof.
  unfold Qcle. cbn. intros Hq. rewrite (Qred_correct (/ this q)).
  by apply Qinv_le_0_compat.
Qed.

Lemma qsum_omap_mono {A} (f f' : A → option Qc) (l : list A) :
  (∀ a q, a ∈ l → f a = Some q → f' a = Some q) →
  (∀ a q, a ∈ l → f' a = Some q → 0 ≤ q) →
  qsum (omap f l) ≤ qsum (omap f' l).
Proof.
  intros Hf Hf'. induction l as [|a l IH]; [done|].
  assert (qsum (omap f l) ≤ qsum (omap f' l)) as Hle.
  { apply IH; intros; [eapply Hf|eapply Hf']; by try right. }
  cbn. destruct (f a) as [q|] eqn:Hfa.
  - rewrite (Hf a q) by (done || by left). rewrite !qsum_cons.
    by apply Qcplus_le_compat.
  - destruct (f' a) as [q|] eqn:Hfa'; [|done].
    rewrite qsum_cons, <-(Qcplus_0_l (qsum (omap f l))).
    apply Qcplus_le_compat; [|done]. eapply Hf'; [by left|done].
Qed.

Lemma group_weight_le_column_weight (rows : list frame_row) r c :
  Forall weight_ok rows.*2 →
  qsum (weight_of <$> group_values (r, c) rows) ≤
  qsum (weight_of <$> column_values rows c).
Proof.
  intros Hok. rewrite group_values_by_row, column_values_by_row.
  apply qsum_omap_mono.
  - intros row q _. destruct (group_key row) as [[a b]|]; [|done].
    destruct (decide (b = c)); [|done]. by case_decide.
  - intros row q Hrow. rewrite Forall_fmap, Forall_forall in Hok.
    specialize (Hok row Hrow). cbn in Hok.
    destruct (group_key row) as [[a b]|]; [|done].
    destruct (decide (b = c)); [|done]. intros [= <-]. by destruct (row.2).
Qed.

(** X5: over well-formed weights every cell of a returned table is a
    percentage: a number between 0 and 100. *)
Theorem cells_are_percentages o x y sx sy lx ly rows t col v :
  df_columns (o_df o) !! x = Some sx →
  df_columns (o_df o) !! y = Some sy →
  variable_value_labels (o_meta o) !! x = Some lx →
  variable_value_labels (o_meta o) !! y = Some ly →
  crosstab_frame (series_map lx sx) (series_map ly sy) (o_weights o) = Ok rows →
  Forall weight_ok (weight_values (o_weights o)) →
  (quick_crosstab x y o).1 = Ok t →
  col ∈ columns t →
  v ∈ col.2 →
  ∃ q, v = Fin q ∧ 0 ≤ q ∧ q ≤ hundred.
Proof.
  intros Hsx Hsy Hlx Hly Hrows Hw Ht Hcol Hv.
  pose proof (crosstab_frame_weight_ok _ _ _ _ Hw Hrows) as Hok.
  apply quick_crosstab_Ok in Ht
    as (sx' & sy' & lx' & ly' & rows' & ? & ? & ? & ? & Hrows' & _ & _ & ->).
  simplify_eq. assert (rows' = rows) as -> by congruence.
  apply list_elem_of_fmap in Hcol as (c & -> & _). cbn in Hv.
  apply list_elem_of_fmap in Hv as (r & -> & _).
  pose proof (column_weight_Fin rows Hok c) as Hc.
  set (w := qsum (weight_of <$> column_values rows c)) in *.
  assert (0 ≤ w) as Hw0.
  { apply qsum_nonneg, Forall_fmap. eapply Forall_impl;
      [by apply column_values_weight_ok|]. by intros []. }
  destruct (decide (w = 0)) as [Hz|Hnz].
  - exists 0. rewrite percent_cell_zero_weight by (done || by rewrite Hc, Hz).
    done.
  - eexists. split; [by apply percent_cell_share|].
    rewrite weight_of_agg_cell by done.
    pose proof (group_weight_le_column_weight rows r c Hok) as Hle. fold w in Hle.
    set (g := qsum (weight_of <$> group_values (r, c) rows)) in *.
    assert (0 ≤ g) as Hg.
    { apply qsum_nonneg, Forall_fmap. eapply Forall_impl;
        [by apply group_values_weight_ok|]. by intros []. }
    assert (0 ≤ / w * hundred) as Hk.
    { rewrite <-(Qcmult_0_l hundred).
      apply Qcmult_le_compat_r; [by apply Qcinv_nonneg|done]. }
    split.
    + rewrite <-(Qcmult_0_l (/ w * hundred)). by apply Qcmult_le_compat_r.
    + replace hundred with (w * (/ w * hundred)) at 2
        by (rewrite Qcmult_assoc, Qcmult_inv_r by done; apply Qcmult_1_l).
      by apply Qcmult_le_compat_r.
Qed.

Lemma cells_are_percentages_witness :
  ∃ q, Fin (Q2Qc 50) = Fin q ∧ 0 ≤ q ∧ q ≤ hundred.
Proof.
  apply (cells_are_percentages example_objects "x" "y"
           [Num 1; Num 2; Num 1] [Str "A"; Str "A"; Str "B"]
           [(Num 1, "Yes"); (Num 2, "No")] [(Str "A", "A"); (Str "B", "B")]
           example_rows example_table ("A", [Fin (Q2Qc 50); Fin (Q2Qc 50)]));
    try reflexivity.
  - repeat constructor; by vm_compute.
  - compute_eq.
  - left.
  - left.
Defined.

(** ** When a call returns *)

(** X6: over weights that fit and are well-formed, [quick_crosstab] returns a
    table exactly when every label of the two canonical label sequences is
    the label of some row that has both codes mapped. *)
Theorem returns_iff_labels_observed df meta x y sx sy lx ly w :
  df_columns df !! x = Some sx →
  df_columns df !! y = Some sy →
  variable_value_labels meta !! x = Some lx →
  variable_value_labels meta !! y = Some ly →
  length sx = length sy →
  weights_fit (length sx) w →
  Forall weight_ok (weight_values w) →
  (∃ t, call df meta x y w = Ok t) ↔
  dict_values lx ⊆ (key_pairs (series_map lx sx) (series_map ly sy)).*1 ∧
  dict_values ly ⊆ (key_pairs (series_map lx sx) (series_map ly sy)).*2.
Proof.
  intros Hsx Hsy Hlx Hly Hlen Hfit Hw.
  assert (length (zip (series_map lx sx) (series_map ly sy)) = length sx) as Hkeys.
  { unfold series_map. rewrite length_zip_with, !length_fmap. lia. }
  rewrite <-Hkeys in Hfit.
  destruct (crosstab_frame_fit _ _ w Hfit) as (rows & Hrows & _).
  unfold call. split.
  - intros [t Ht]. apply quick_crosstab_Ok in Ht
      as (sx' & sy' & lx' & ly' & rows' & ? & ? & ? & ? & Hrows' & Hx & Hy & _).
    simplify_eq/=. rewrite <-(crosstab_frame_keys _ _ _ _ Hrows').
    split.
    + intros r Hr%Hx. by apply elem_of_index_pivot_table.
    + intros c Hc%Hy. by apply elem_of_columns_pivot_table.
  - intros [Hx Hy]. eexists.
    by apply (quick_crosstab_returns _ x y sx sy lx ly rows).
Qed.

Lemma returns_iff_labels_observed_witness :
  (∃ t, call example_df example_meta "x" "y" example_weights = Ok t) ↔
  dict_values [(Num 1, "Yes"); (Num 2, "No")] ⊆
    (key_pairs
       (series_map [(Num 1, "Yes"); (Num 2, "No")] [Num 1; Num 2; Num 1])
       (series_map [(Str "A", "A"); (Str "B", "B")] [Str "A"; Str "A"; Str "B"])).*1 ∧
  dict_values [(Str "A", "A"); (Str "B", "B")] ⊆
    (key_pairs
       (series_map [(Num 1, "Yes"); (Num 2, "No")] [Num 1; Num 2; Num 1])
       (series_map [(Str "A", "A"); (Str "B", "B")] [Str "A"; Str "A"; Str "B"])).*2.
Proof.
  apply (returns_iff_labels_observed example_df example_meta "x" "y"
           [Num 1; Num 2; Num 1] [Str "A"; Str "A"; Str "B"]);
    try reflexivity.
  repeat constructor; by vm_compute.
Defined.

(** ** Arguments that are not there *)

(** X7: when the table lacks column x or y, or the metadata has no label
    dict for one of them, the call raises [KeyError] for that column name;
    x is looked up before y, in the table before the metadata. *)
Theorem missing_column_raises o x y :
  df_columns (o_df o) !! x = None ∨
  variable_value_labels (o_meta o) !! x = None ∨
  df_columns (o_df o) !! y = None ∨
  variable_value_labels (o_meta o) !! y = None →
  (quick_crosstab x y o).1 =
  Raise (KeyError
           [if bool_decide (is_Some (df_columns (o_df o) !! x) ∧
                            is_Some (variable_value_labels (o_meta o) !! x))
            then y else x]).
Proof.
  intros Hmiss.
  unfold quick_crosstab, mbind, M_bind, df_getitem, labels_getitem. cbn.
  destruct (df_columns (o_df o) !! x) as [sx|];
    [|by rewrite bool_decide_false by (by intros [[? [=]] _])].
  destruct (variable_value_labels (o_meta o) !! x) as [lx|];
    [|by rewrite bool_decide_false by (by intros [_ [? [=]]])].
  rewrite bool_decide_true by (split; eauto).
  destruct (df_columns (o_df o) !! y) as [sy|]; [|done].
  destruct (variable_value_labels (o_meta o) !! y) as [ly|]; [|done].
  by destruct Hmiss as [|[|[|]]].
Qed.

Lemma missing_column_raises_witness :
  (quick_crosstab "x" "z" example_objects).1 = Raise (KeyError ["z"]).
Proof.
  apply (missing_column_raises example_objects "x" "z"). by right; right; left.
Defined.

(** ** Weights as a Series *)

Lemma imap_pair_fst {A} (a : list A) (j : nat) :
  (imap (λ i v, ((j + i)%nat, v)) a).*1 = seq j (length a).
Proof.
  revert j. induction a as [|v a IH]; intros j; [done|].
  rewrite imap_cons. cbn. rewrite Nat.add_0_r. f_equal.
  rewrite <-(IH (S j)). f_equal. apply imap_ext. intros i v' _. cbn.
  f_equal. lia.
Qed.

Lemma as_series_index {A} (a : list A) :
  (imap (λ i v, (i, v)) a).*1 = seq 0 (length a).
Proof. by rewrite <-(imap_pair_fst a 0). Qed.

Lemma imap_pair_snd {A} (a : list A) : (imap (λ i v, (i, v)) a).*2 = a.
Proof.
  apply list_eq. intros i. rewrite list_lookup_fmap, list_lookup_imap.
  by destruct (a !! i).
Qed.

Lemma series_lookup_as_series a i :
  series_lookup (imap (λ i v, (i, v)) a) i = default NaN (a !! i).
Proof.
  unfold series_lookup. destruct (a !! i) as [v|] eqn:Hi; cbn.
  - erewrite elem_of_list_to_map_1; [done| |].
    + rewrite as_series_index. apply NoDup_seq.
    + by apply (elem_of_lookup_imap_2 (λ i v, (i, v))).
  - rewrite (proj1 (not_elem_of_list_to_map _ _)); [done|].
    rewrite as_series_index, elem_of_seq. apply lookup_ge_None in Hi. lia.
Qed.

(** X8: passing the weights as a column of the table (a Series over the
    default index, as the notebook does with [df15.weights]) gives what
    passing the same values as a plain sequence gives, when there is one
    weight per row. *)
Theorem series_weights_as_array df meta x y sx sy a :
  df_columns df !! x = Some sx →
  df_columns df !! y = Some sy →
  length sx = length sy →
  length a = length sx →
  call df meta x y (as_series a) = call df meta x y (WArray a).
Proof.
  intros Hsx Hsy Hlen Ha. unfold call.
  destruct (variable_value_labels meta !! x) as [lx|] eqn:Hlx; last first.
  { unfold quick_crosstab, mbind, M_bind, df_getitem, labels_getitem. cbn.
    by rewrite Hsx, Hlx. }
  destruct (variable_value_labels meta !! y) as [ly|] eqn:Hly; last first.
  { unfold quick_crosstab, mbind, M_bind, df_getitem, labels_getitem. cbn.
    by rewrite Hsx, Hlx, Hsy, Hly. }
  rewrite !(quick_crosstab_unfold _ x y sx sy lx ly) by done.
  unfold crosstab. cbn [o_weights].
  assert (crosstab_frame (series_map lx sx) (series_map ly sy) (as_series a) =
          crosstab_frame (series_map lx sx) (series_map ly sy) (WArray a)) as ->;
    [|done].
  assert (length (zip (series_map lx sx) (series_map ly sy)) = length a) as Hkeys.
  { unfold series_map. rewrite length_zip_with, !length_fmap. lia. }
  unfold crosstab_frame, as_series.
  destruct (zip _ _) as [|k keys] eqn:Hk.
  { cbn [weight_values]. by rewrite imap_pair_snd. }
  rewrite !decide_True; [|done|rewrite as_series_index; apply NoDup_seq].
  f_equal. rewrite imap_zip_seq. f_equal. rewrite Hkeys.
  trans (row_weight (WArray a) <$> seq 0 (length a)); [|apply array_row_weight].
  apply list_fmap_ext. intros _ i _. apply series_lookup_as_series.
Qed.

Lemma series_weights_as_array_witness :
  call example_df example_meta "x" "y" (as_series [Fin 2; Fin 2; Fin (Q2Qc 5)]) =
  call example_df example_meta "x" "y" (WArray [Fin 2; Fin 2; Fin (Q2Qc 5)]).
Proof.
  apply (series_weights_as_array example_df example_meta "x" "y"
           [Num 1; Num 2; Num 1] [Str "A"; Str "A"; Str "B"]);
    reflexivity.
Defined.

(** ** The scale of the weights *)

Lemma weights_irrelevant_without_lookups df meta x y w w' :
  (∃ sx sy lx ly,
     df_columns df !! x = Some sx ∧ df_columns df !! y = Some sy ∧
     variable_value_labels meta !! x = Some lx ∧
     variable_value_labels meta !! y = Some ly) ∨
  call df meta x y w = call df meta x y w'.
Proof.
  unfold call, quick_crosstab, mbind, M_bind, df_getitem, labels_getitem. cbn.
  destruct (df_columns df !! x) as [sx|]; [|by right].
  destruct (variable_value_labels meta !! x) as [lx|]; [|by right].
  destruct (df_columns df !! y) as [sy|]; [|by right].
  destruct (variable_value_labels meta !! y) as [ly|]; [|by right].
  left. by exists sx, sy, lx, ly.
Qed.

Lemma table_of_ext idx cols f g :
  (∀ r c, f r c = g r c) → table_of idx cols f = table_of idx cols g.
Proof.
  intros Hfg. unfold table_of. f_equal. apply list_fmap_ext. intros _ c _.
  f_equal. apply list_fmap_ext. intros _ r _. apply Hfg.
Qed.

Lemma forallb_isnan_ext {A} (f g : A → float64) (l : list A) :
  (∀ a, isnan (f a) = isnan (g a)) →
  forallb isnan (f <$> l) = forallb isnan (g <$> l).
Proof.
  intros Hfg. induction l as [|a l IH]; [done|]. cbn. by rewrite Hfg, IH.
Qed.

Section scale.
Context (k : Qc) (Hk : 0 < k).
Context (rows : list frame_row) (Hok : Forall weight_ok rows.*2).

Let scaled : list frame_row := (λ r : frame_row, (r.1, fmul r.2 (Fin k))) <$> rows.

Lemma scale_weight_ok v : weight_ok v → weight_ok (fmul v (Fin k)).
Proof.
  destruct v as [q| | |]; cbn; try done. intros Hq.
  rewrite <-(Qcmult_0_l k). apply Qcmult_le_compat_r; [done|].
  by apply Qclt_le_weak.
Qed.

Lemma weight_of_scale v : weight_ok v → weight_of (fmul v (Fin k)) = weight_of v * k.
Proof. destruct v as [q| | |]; cbn; try done. intros _. ring. Qed.

Lemma qsum_weight_of_scale l :
  Forall weight_ok l →
  qsum (weight_of <$> ((λ v, fmul v (Fin k)) <$> l)) = qsum (weight_of <$> l) * k.
Proof.
  intros Hl. rewrite <-qsum_fmap_scale, <-list_fmap_compose.
  f_equal. apply Forall_fmap_ext_1. eapply Forall_impl; [done|].
  intros v Hv. by apply weight_of_scale.
Qed.

Lemma scaled_weight_ok : Forall weight_ok scaled.*2.
Proof.
  unfold scaled. rewrite <-list_fmap_compose. apply Forall_fmap.
  rewrite Forall_fmap in Hok. eapply Forall_impl; [done|].
  intros r Hr. by apply scale_weight_ok.
Qed.

Lemma scaled_keys : omap group_key scaled = omap group_key rows.
Proof.
  rewrite !omap_group_key. unfold scaled. by rewrite <-list_fmap_compose.
Qed.

Lemma scaled_group_values key :
  group_values key scaled = (λ v, fmul v (Fin k)) <$> group_values key rows.
Proof.
  clear Hok. unfold group_values, scaled.
  induction rows as [|r rs IH]; [done|]. cbn.
  change (group_key (r.1, fmul r.2 (Fin k))) with (group_key r).
  destruct (decide (group_key r = Some key)); cbn; by rewrite IH.
Qed.

Lemma scaled_column_values c :
  column_values scaled c = (λ v, fmul v (Fin k)) <$> column_values rows c.
Proof.
  clear Hok. unfold column_values, scaled.
  induction rows as [|r rs IH]; [done|]. cbn.
  change (group_key (r.1, fmul r.2 (Fin k))) with (group_key r).
  destruct (group_key r) as [[a b]|]; [|done].
  destruct (decide (b = c)); cbn; by rewrite IH.
Qed.

Lemma scaled_index : index (pivot_table scaled) = index (pivot_table rows).
Proof.
  unfold pivot_table, unstack. cbn [index dropna_columns table_of].
  rewrite !dropna_rows_weight_ok by (done || apply scaled_weight_ok).
  by rewrite !groupby_sum_keys, scaled_keys.
Qed.

Lemma scaled_agg_cell_isnan r c :
  isnan (agg_cell scaled r c) = isnan (agg_cell rows r c).
Proof.
  rewrite !agg_cell_weight_ok by (done || apply scaled_weight_ok).
  rewrite scaled_keys. by case_decide.
Qed.

Lemma scaled_column_labels :
  column_labels (pivot_table scaled) = column_labels (pivot_table rows).
Proof.
  unfold pivot_table, unstack.
  rewrite !dropna_columns_table_of, !column_labels_table_of.
  rewrite !dropna_rows_weight_ok by (done || apply scaled_weight_ok).
  rewrite !groupby_sum_keys, scaled_keys.
  apply list_filter_iff. intros c.
  rewrite (forallb_isnan_ext _
             (λ r, default NaN
                     ((list_to_map (groupby_sum rows)
                       : gmap (string * string) float64) !! (r, c))));
    [done|].
  intros r. pose proof (scaled_agg_cell_isnan r c) as Hnan.
  unfold agg_cell in Hnan.
  by rewrite !dropna_rows_weight_ok in Hnan by (done || apply scaled_weight_ok).
Qed.

Lemma scaled_percent_cell r c : percent_cell scaled r c = percent_cell rows r c.
Proof.
  pose proof scaled_weight_ok as Hok'.
  pose proof (column_weight_Fin rows Hok c) as Hc.
  pose proof (column_weight_Fin scaled Hok' c) as Hc'.
  rewrite scaled_column_values, qsum_weight_of_scale in Hc'
    by by apply column_values_weight_ok.
  set (w := qsum (weight_of <$> column_values rows c)) in *.
  destruct (decide (w = 0)) as [Hz|Hnz].
  - rewrite !percent_cell_zero_weight; [done|done|by rewrite Hc, Hz|done|].
    rewrite Hc', Hz. f_equal. apply Qcmult_0_l.
  - assert (k ≠ 0) as Hk0 by (by apply not_eq_sym, Qclt_not_eq).
    assert (w * k ≠ 0) as Hwk.
    { intros [?|?]%Qcmult_integral; done. }
    rewrite (percent_cell_share scaled Hok' r c (w * k)) by done.
    rewrite (percent_cell_share rows Hok r c w) by done.
    rewrite !weight_of_agg_cell by done.
    rewrite scaled_group_values, qsum_weight_of_scale
      by by apply group_values_weight_ok.
    f_equal. by field.
Qed.

End scale.

Lemma zip_fmap_snd {A B C} (f : B → C) (keys : list A) (a : list B) :
  zip keys (f <$> a) = (λ r, (r.1, f r.2)) <$> zip keys a.
Proof.
  revert a. induction keys as [|p keys IH]; intros [|v a]; try done.
  cbn. by rewrite <-IH.
Qed.

Lemma series_lookup_scale k s i :
  series_lookup ((λ iv, (iv.1, fmul iv.2 (Fin k))) <$> s) i =
  fmul (series_lookup s i) (Fin k).
Proof.
  unfold series_lookup.
  rewrite (list_to_map_fmap (λ v, fmul v (Fin k)) s), lookup_fmap.
  by destruct (list_to_map s !! i).
Qed.

(** Scaling the weights scales the [__dummy__] column of the internal frame
    and changes nothing else, not even whether the weights are accepted. *)
Lemma crosstab_frame_scale xs ys w k :
  crosstab_frame xs ys (scale_weights k w) =
  match crosstab_frame xs ys w with
  | Ok rows => Ok ((λ r : frame_row, (r.1, fmul r.2 (Fin k))) <$> rows)
  | Raise e => Raise e
  end.
Proof.
  unfold crosstab_frame. destruct (zip xs ys) as [|p keys].
  { f_equal. rewrite <-list_fmap_compose.
    destruct w as [s|a]; cbn; rewrite <-!list_fmap_compose;
      by apply list_fmap_ext. }
  destruct w as [s|a]; cbn [scale_weights].
  - assert (((λ iv : nat * float64, (iv.1, fmul iv.2 (Fin k))) <$> s).*1 = s.*1)
      as -> by (rewrite <-list_fmap_compose; by apply list_fmap_ext).
    case_decide; [|done]. f_equal.
    apply list_eq. intros i.
    rewrite list_lookup_fmap, !list_lookup_imap.
    destruct ((p :: keys) !! i); cbn; [|done]. by rewrite series_lookup_scale.
  - rewrite length_fmap. case_decide; [|done]. by rewrite zip_fmap_snd.
Qed.

(** X9: the unit of the weights does not matter: multiplying every weight
    by the same positive number leaves the outcome of the call as it is,
    rounding aside, the table with all its cells or the exception, as long
    as the weights are within the float64 range before and after.  The
    exact arithmetic followed here needs the range of the given weights
    only; float64 needs that of the multiplied ones too. *)
Theorem weight_scale_invariant df meta x y w k :
  0 < k →
  in_float_range (weight_values w) →
  in_float_range (weight_values (scale_weights k w)) →
  call df meta x y (scale_weights k w) = call df meta x y w.
Proof.
  intros Hk Hw%in_float_range_weight_ok _.
  destruct (weights_irrelevant_without_lookups df meta x y (scale_weights k w) w)
    as [(sx & sy & lx & ly & Hsx & Hsy & Hlx & Hly)|]; [|done].
  unfold call.
  destruct (crosstab_frame (series_map lx sx) (series_map ly sy) w)
    as [rows|e] eqn:Hrows.
  - pose proof (crosstab_frame_weight_ok _ _ _ _ Hw Hrows) as Hok.
    rewrite (quick_crosstab_rows _ x y sx sy lx ly
               ((λ r : frame_row, (r.1, fmul r.2 (Fin k))) <$> rows))
      by (done || by cbn [o_weights]; rewrite crosstab_frame_scale, Hrows).
    rewrite (quick_crosstab_rows _ x y sx sy lx ly rows) by done.
    rewrite scaled_index, scaled_column_labels by done.
    destruct (filter _ (dict_values lx)); [|done].
    destruct (filter _ (dict_values ly)); [|done].
    f_equal. apply table_of_ext. intros r c. by apply scaled_percent_cell.
  - rewrite !(quick_crosstab_unfold _ x y sx sy lx ly) by done.
    unfold crosstab. cbn [o_weights].
    by rewrite crosstab_frame_scale, Hrows.
Qed.

Lemma weight_scale_invariant_witness :
  call example_df example_meta "x" "y" (scale_weights (Q2Qc 3) example_weights) =
  call example_df example_meta "x" "y" example_weights.
Proof.
  apply (weight_scale_invariant example_df example_meta "x" "y"
           example_weights (Q2Qc 3)).
  - done.
  - in_range.
  - in_range.
Defined.

(** ** Missing weights *)

Lemma fadd_0_l v : fadd (Fin 0) v = v.
Proof. destruct v; cbn; try done. by rewrite Qcplus_0_l. Qed.

Lemma fillna0_idemp v : fillna0 (fillna0 v) = fillna0 v.
Proof. by destruct v. Qed.

(** A sum that skips missing values does not tell a missing value from 0. *)
Lemma sum_skipna_fillna0 l l' :
  Forall2 (λ v v', fillna0 v = fillna0 v') l l' → sum_skipna l = sum_skipna l'.
Proof.
  induction 1 as [|v v' l l' Hv _ IH]; [done|].
  rewrite !sum_skipna_cons, IH.
  destruct v as [q| | |], v' as [q'| | |]; cbn in Hv; try discriminate Hv;
    try done; cbn.
  - by assert (q = q') as -> by congruence.
  - assert (q = 0) as -> by congruence. apply fadd_0_l.
  - assert (q' = 0) as -> by congruence. symmetry. apply fadd_0_l.
Qed.

Lemma groupby_sum_fillna0 (rows rows' : list frame_row) :
  Forall2 (λ r r', r.1 = r'.1 ∧ fillna0 r.2 = fillna0 r'.2) rows rows' →
  groupby_sum rows = groupby_sum rows'.
Proof.
  intros Hrows. unfold groupby_sum.
  assert (omap group_key rows = omap group_key rows') as ->.
  { induction Hrows as [|r r' rs rs' [Hr _] _ IH]; [done|].
    assert (group_key r = group_key r') as Hg by (unfold group_key; by rewrite Hr).
    cbn. by rewrite Hg, IH. }
  apply list_fmap_ext. intros _ key _. f_equal.
  apply sum_skipna_fillna0. unfold group_values.
  induction Hrows as [|r r' rs rs' [Hr Hv] _ IH]; [constructor|].
  assert (group_key r = group_key r') as Hg by (unfold group_key; by rewrite Hr).
  cbn. rewrite Hg. case_decide; [by constructor|done].
Qed.

Lemma crosstab_frame_fill xs ys w :
  match crosstab_frame xs ys w with
  | Ok rows =>
      ∃ rows', crosstab_frame xs ys (fill_weights w) = Ok rows' ∧
               Forall2 (λ r r', r.1 = r'.1 ∧ fillna0 r.2 = fillna0 r'.2) rows' rows
  | Raise e => crosstab_frame xs ys (fill_weights w) = Raise e
  end.
Proof.
  unfold crosstab_frame. destruct (zip xs ys) as [|p keys].
  { eexists. split; [done|].
    assert (weight_values (fill_weights w) = fillna0 <$> weight_values w) as ->.
    { destruct w as [s|a]; cbn; [|done].
      rewrite <-!list_fmap_compose. by apply list_fmap_ext. }
    rewrite <-list_fmap_compose. apply Forall2_fmap, Forall_Forall2_diag.
    apply Forall_forall. intros v _. cbn. by rewrite fillna0_idemp. }
  destruct w as [s|a]; cbn [fill_weights].
  - assert (((λ iv : nat * float64, (iv.1, fillna0 iv.2)) <$> s).*1 = s.*1)
      as -> by (rewrite <-list_fmap_compose; by apply list_fmap_ext).
    case_decide; [|done]. eexists. split; [done|].
    apply Forall2_same_length_lookup. split; [by rewrite !length_imap|].
    intros i r r'. rewrite !list_lookup_imap.
    destruct ((p :: keys) !! i); cbn; [|done]. intros [= <-] [= <-]. cbn.
    split; [done|]. unfold series_lookup.
    rewrite (list_to_map_fmap fillna0 s), lookup_fmap.
    destruct (list_to_map s !! i); cbn; [|done]. apply fillna0_idemp.
  - rewrite length_fmap. case_decide; [|done]. eexists. split; [done|].
    rewrite zip_fmap_snd. apply Forall2_fmap_l, Forall_Forall2_diag.
    apply Forall_forall. intros r _. cbn. by rewrite fillna0_idemp.
Qed.

(** X10: a missing weight counts as no weight: filling the missing weights
    with 0 before the call leaves its outcome as it is. *)
Theorem missing_weight_counts_as_zero df meta x y w :
  call df meta x y (fill_weights w) = call df meta x y w.
Proof.
  destruct (weights_irrelevant_without_lookups df meta x y (fill_weights w) w)
    as [(sx & sy & lx & ly & Hsx & Hsy & Hlx & Hly)|]; [|done].
  unfold call.
  rewrite !(quick_crosstab_unfold _ x y sx sy lx ly) by done.
  unfold crosstab. cbn [o_weights].
  pose proof (crosstab_frame_fill (series_map lx sx) (series_map ly sy) w) as Hfill.
  destruct (crosstab_frame _ _ w) as [rows|e].
  - destruct Hfill as (rows' & -> & Hrows). unfold pivot_table.
    by rewrite (groupby_sum_fillna0 rows' rows).
  - by rewrite Hfill.
Qed.

(** * Further properties of the notebook's cells *)

(** Binding [demo] does not change how another name resolves. *)
Lemma resolves_after_demo ns n :
  n ≠ "demo" → bool_decide (n ∈ builtins) = false →
  resolves ({["demo"]} ∪ ∅ ∪ ns) n = bool_decide (n ∈ ns).
Proof.
  intros Hn Hb%bool_decide_eq_false. unfold resolves. apply bool_decide_ext.
  rewrite !elem_of_union, elem_of_singleton, elem_of_empty. tauto.
Qed.

Lemma not_builtin_resolves ns n :
  bool_decide (n ∈ builtins) = false → n ∈ ns ∪ builtins ↔ n ∈ ns.
Proof. intros Hn%bool_decide_eq_false. rewrite elem_of_union. tauto. Qed.

(** X11: in whatever state the kernel is, as long as nothing has bound the
    name [pt], the last cell raises [NameError] for [pt] and binds
    nothing. *)
Theorem last_cell_raises_in_any_namespace ns :
  "pt" ∉ ns → exec_cell ns cell_2018 = (Raise (NameError "pt"), ns).
Proof.
  intros Hpt.
  assert (resolves ns "pt" = false) as Hr.
  { apply bool_decide_eq_false_2. rewrite not_builtin_resolves; [done|].
    by vm_compute. }
  cbn. unfold eval_expr. cbn.
  by destruct (decide (resolves ns "pt" = false)).
Qed.

Lemma last_cell_raises_in_any_namespace_witness :
  exec_cell {["pd"; "df18"; "meta18"]} cell_2018 =
  (Raise (NameError "pt"), {["pd"; "df18"; "meta18"]}).
Proof.
  apply (last_cell_raises_in_any_namespace {["pd"; "df18"; "meta18"]}).
  apply (bool_decide_eq_false_1 _). by vm_compute.
Defined.

(** X12: the cell that computes the three 2015 crosstabs needs the cell
    that defines the function and the cell that reads the files: when
    [quick_crosstab], [df15] or [meta15] is unbound, the cell raises
    [NameError] for the first of them that is, in this order, at its first
    call, having bound [demo] and nothing else. *)
Theorem cell_2015_unbound_raises ns n :
  head (filter (λ m, m ∉ ns) ["quick_crosstab"; "df15"; "meta15"]) = Some n →
  exec_cell ns cell_2015 = (Raise (NameError n), list_to_set ["demo"] ∪ ns).
Proof.
  intros Hn. cbn [cell_2015 exec_cell exec_stmt]. unfold eval_expr at 1. cbn.
  assert (eval_expr ({["demo"]} ∪ ∅ ∪ ns)
            (call_quick_crosstab (EName "quick_crosstab") (EName "df15")
               (EName "meta15") (EStr "q20a") (EName "demo")
               (EAttr (EName "df15") "weights")) = Raise (NameError n)) as ->;
    [|done].
  unfold eval_expr.
  change (loads _) with ["quick_crosstab"; "df15"; "meta15"; "demo"; "df15"].
  rewrite !filter_cons, !(resolves_after_demo ns) by (done || by vm_compute).
  rewrite !filter_cons in Hn.
  repeat case_bool_decide; repeat case_decide; try done; cbn in Hn; by simplify_eq.
Qed.

Lemma cell_2015_unbound_raises_witness :
  exec_cell {["quick_crosstab"]} cell_2015 =
  (Raise (NameError "df15"), list_to_set ["demo"] ∪ {["quick_crosstab"]}).
Proof.
  apply (cell_2015_unbound_raises {["quick_crosstab"]} "df15"). by vm_compute.
Defined.

(** * The order of the rows *)

Lemma fadd_swap a1 a2 b : fadd a1 (fadd a2 b) = fadd a2 (fadd a1 b).
Proof.
  destruct a1, a2, b; cbn; try done. f_equal. ring.
Qed.

Lemma sum_skipna_Permutation l l' : l ≡ₚ l' → sum_skipna l = sum_skipna l'.
Proof.
  intros Hl. unfold sum_skipna.
  apply (foldr_permutation_proper (=) fadd (Fin 0) fadd_swap).
  by rewrite Hl.
Qed.

Lemma sorted_unique_Permutation l l' : l ≡ₚ l' → sorted_unique l = sorted_unique l'.
Proof.
  intros Hl. unfold sorted_unique.
  apply (Sorted_unique String.le); [apply Sorted_merge_sort, _..|].
  rewrite !merge_sort_Permutation.
  apply NoDup_Permutation; [apply NoDup_remove_dups..|].
  intros a. by rewrite !elem_of_remove_dups, Hl.
Qed.

Lemma NoDup_fst_filter {A B} (P : A * B → Prop) `{!∀ p, Decision (P p)}
    (l : list (A * B)) :
  NoDup l.*1 → NoDup (filter P l).*1.
Proof.
  induction l as [|[a b] l IH]; [done|].
  intros Hnd. rewrite fmap_cons in Hnd. apply NoDup_cons in Hnd as [Ha Hl].
  rewrite filter_cons. case_decide; [|by auto].
  rewrite fmap_cons. apply NoDup_cons. split; [|by auto].
  intros (p & Hp1 & [_ Hp]%list_elem_of_filter)%list_elem_of_fmap.
  apply Ha. rewrite Hp1. by apply (list_elem_of_fmap_2 fst).
Qed.

Lemma groupby_sum_Permutation rows rows' :
  rows ≡ₚ rows' → groupby_sum rows ≡ₚ groupby_sum rows'.
Proof.
  intros Hrows. unfold groupby_sum.
  rewrite (list_fmap_ext _ (λ key, (key, sum_skipna (group_values key rows'))) _).
  - apply fmap_Permutation, NoDup_Permutation; [apply NoDup_remove_dups..|].
    intros key. by rewrite !elem_of_remove_dups, Hrows.
  - intros _ key _. f_equal. apply sum_skipna_Permutation.
    unfold group_values. by rewrite Hrows.
Qed.

(** The aggregate does not depend on the order of the rows. *)
Lemma pivot_table_Permutation rows rows' :
  rows ≡ₚ rows' → pivot_table rows = pivot_table rows'.
Proof.
  intros Hrows. unfold pivot_table.
  pose proof (groupby_sum_Permutation _ _ Hrows) as Hsum.
  assert (dropna_rows (groupby_sum rows) ≡ₚ dropna_rows (groupby_sum rows'))
    as Hdrop by (unfold dropna_rows; by rewrite Hsum).
  unfold unstack. cbv zeta.
  rewrite (list_to_map_proper _ _ (NoDup_fst_filter _ _ (NoDup_groupby_sum_keys rows))
             Hdrop).
  rewrite (sorted_unique_Permutation (dropna_rows (groupby_sum rows)).*1.*1
             (dropna_rows (groupby_sum rows')).*1.*1)
    by by rewrite Hdrop.
  by rewrite (sorted_unique_Permutation (dropna_rows (groupby_sum rows)).*1.*2
                (dropna_rows (groupby_sum rows')).*1.*2)
    by by rewrite Hdrop.
Qed.

Lemma crosstab_frame_array xs ys a :
  length a = length (zip xs ys) →
  crosstab_frame xs ys (WArray a) = Ok (zip (zip xs ys) a).
Proof.
  unfold crosstab_frame. destruct (zip xs ys) as [|k keys].
  - by destruct a.
  - intros Hlen. by rewrite decide_True.
Qed.

Lemma frame_rows_fmap (lx ly : value_labels) (sx sy : list scalar) (a : list float64) :
  zip (zip (series_map lx sx) (series_map ly sy)) a =
  (λ r : scalar * scalar * float64, (dict_get lx r.1.1, dict_get ly r.1.2, r.2))
    <$> zip (zip sx sy) a.
Proof.
  unfold series_map. revert sy a.
  induction sx as [|vx sx IH]; intros [|vy sy] [|v a]; try done.
  cbn. f_equal. apply IH.
Qed.

(** X13: the order of the rows of the table does not matter: over weights
    within the float64 range, two tables that hold the same rows (codes of x
    and y with their weight) in a different order give the same outcome,
    rounding aside.  The exact arithmetic followed here is commutative
    whatever the weights; float64 sums in another order agree up to rounding
    when nothing overflows or cancels, which is what the range gives. *)
Theorem row_order_irrelevant df df' meta x y sx sy a sx' sy' a' :
  df_columns df !! x = Some sx →
  df_columns df !! y = Some sy →
  df_columns df' !! x = Some sx' →
  df_columns df' !! y = Some sy' →
  length sx = length sy → length a = length sx →
  length sx' = length sy' → length a' = length sx' →
  in_float_range a →
  zip (zip sx sy) a ≡ₚ zip (zip sx' sy') a' →
  call df meta x y (WArray a) = call df' meta x y (WArray a').
Proof.
  intros Hsx Hsy Hsx' Hsy' ?? ?? _ Hperm. unfold call.
  destruct (variable_value_labels meta !! x) as [lx|] eqn:Hlx; last first.
  { unfold quick_crosstab, mbind, M_bind, df_getitem, labels_getitem. cbn.
    by rewrite Hsx, Hsx', Hlx. }
  destruct (variable_value_labels meta !! y) as [ly|] eqn:Hly; last first.
  { unfold quick_crosstab, mbind, M_bind, df_getitem, labels_getitem. cbn.
    by rewrite Hsx, Hsx', Hlx, Hsy, Hsy', Hly. }
  rewrite (quick_crosstab_unfold _ x y sx sy lx ly) by done.
  rewrite (quick_crosstab_unfold _ x y sx' sy' lx ly) by done.
  unfold crosstab. cbn [o_weights].
  rewrite !crosstab_frame_array
    by (unfold series_map; rewrite length_zip_with, !length_fmap; lia).
  rewrite (pivot_table_Permutation _
             (zip (zip (series_map lx sx') (series_map ly sy')) a')); [done|].
  rewrite !frame_rows_fmap. by apply fmap_Permutation.
Qed.

Lemma row_order_irrelevant_witness :
  call example_df example_meta "x" "y" example_weights =
  call {| df_columns := {[ "x" := [Num 1; Num 1; Num 2];
                           "y" := [Str "B"; Str "A"; Str "A"] ]} |}
    example_meta "x" "y" (WArray [Fin (Q2Qc 5); Fin 2; Fin 2]).
Proof.
  apply (row_order_irrelevant example_df _ example_meta "x" "y"
           [Num 1; Num 2; Num 1] [Str "A"; Str "A"; Str "B"]
           [Fin 2; Fin 2; Fin (Q2Qc 5)]
           [Num 1; Num 1; Num 2] [Str "B"; Str "A"; Str "A"]
           [Fin (Q2Qc 5); Fin 2; Fin 2]);
    try reflexivity.
  - in_range.
  - apply (bool_decide_eq_true_1 _). by vm_compute.
Defined.
